(** * go-abls: the streaming decoder and the session state of [main.go]

    A shallow embedding of the chat client's stream decoder
    ([processStreamResponse]), of the transport wiring around it
    ([streamChatCompletion]), of the turn orchestration ([processAIResponse])
    and of the session commands ([handleCommand] and what it calls).

    Go strings and byte slices are sequences of bytes: both are [string]
    here (an [ascii] is one byte).  Go's [int] is [Z].  The program's
    mutable [*ChatState] is passed explicitly: every function that mutates
    it returns the new state.  Console output is returned as a trace of
    [Output] events, one constructor per print site of the source.  Library
    and network calls ([json.Unmarshal], [http.Client.Do], ...) are the
    fields of the class [Externals]. *)

From Stdlib Require Import String Ascii List ZArith Bool Arith Lia.
From Equations Require Import Equations.
Import ListNotations.

Local Open Scope string_scope.
Local Open Scope list_scope.

(** ** Data structures *)

Record Message := { Role : string; Content : string }.

Record StreamRequest := {
  ReqModel : string;
  Messages : list Message;
  Stream : bool
}.

(** The anonymous structs of [StreamResponse]. *)
Record DeltaT := { DeltaContent : string }.

Record Choice := { Delta : DeltaT; FinishReason : string }.

Record UsageT := {
  PromptTokens : Z;
  CompletionTokens : Z;
  TotalTokens : Z
}.

Record StreamResponse := {
  ID : string;
  RespModel : string;
  Choices : list Choice;
  Usage : UsageT
}.

(** [ChatState]; the [Client] field is the external [Client_Do] below. *)
Record ChatState := {
  Model : string;
  History : list Message;
  CmdHistory : list string;
  Debug : bool;
  LastRequestID : string;
  isSingleCmd : bool
}.

(** ** Errors

    Go error values: the sentinel [io.EOF], [errors.New msg],
    [fmt.Errorf("<prefix>: %w", inner)] and the one formatted error of
    [streamChatCompletion] that wraps nothing. *)
Inductive error :=
| io_EOF
| errors_New (msg : string)
| Errorf_w (prefix : string) (inner : error)
| Errorf_API (status : Z) (body : string).

(** [errors.Is(err, io.EOF)]: follows the chain of wrapped errors. *)
Fixpoint errors_Is_EOF (err : error) : bool :=
  match err with
  | io_EOF => true
  | Errorf_w _ inner => errors_Is_EOF inner
  | _ => false
  end.

Definition msg_empty_command : string := "空命令".
Definition msg_empty_reply : string := "未收到有效回复内容".
Definition msg_encode : string := "JSON编码失败".
Definition msg_create_request : string := "创建请求失败".
Definition msg_send : string := "请求发送失败".
Definition msg_read_stream : string := "读取流失败".
Definition msg_parse_json : string := "解析JSON失败".

(** ** Console output, one event per print site *)
Inductive Output :=
| OutAIPrefix (model : string)          (* "AI(%s): " *)
| OutContent (content : string)         (* fmt.Print(content) *)
| OutReply (aiReply : string)           (* fmt.Println(aiReply) *)
| OutDebugRequest (jsonData : string)   (* "[DEBUG] 请求体" *)
| OutDebugChunk (chunk : StreamResponse)
| OutDebugInfo (requestID : string) (historyLen : nat) (last : Message)
| OutReset                              (* "对话历史已重置" *)
| OutCurrentModel (model : string)      (* "当前模型: %s ... 可用模型: ..." *)
| OutSwitched (model : string)          (* "已切换模型为: %s" *)
| OutUnsupportedModel                   (* "错误：不支持的模型" *)
| OutDebugMode (on : bool)              (* "调试模式 %v" *)
| OutHelp
| OutNoCmdHistory                       (* "暂无历史记录" *)
| OutCmdHistoryHeader                   (* "命令历史:" *)
| OutCmdHistoryEntry (index : nat) (cmd : string)
| OutError (err : error)                (* stderr, "错误: %v" *)
| OutNewline.

(** ** Readers

    An [io.Reader] over a finite stream: the bytes it still holds and the
    error it reports once they are used up ([io.EOF] at a clean end of
    stream, another error when the connection breaks). *)
Record Reader := { data : string; final : error }.

(** ** HTTP *)
Record Request := {
  Method : string;
  URL : string;
  Header : list (string * string);
  ReqBody : string
}.

Record Response := { StatusCode : Z; Body : Reader }.

Definition http_StatusOK : Z := 200.

(** ** Flags, library calls and the network *)
Class Externals := {
  apiKey : string;
  defaultModel : string;
  apiEndpoint : string;
  enableStream : bool;
  enableDebug : bool;
  command : string;
  (** [json.Unmarshal] into a zero [StreamResponse] *)
  json_Unmarshal : string -> StreamResponse + error;
  (** [json.Marshal] of the request payload *)
  json_Marshal : StreamRequest -> string + error;
  (** [http.NewRequest method url body] *)
  http_NewRequest : string -> string -> string -> Request + error;
  (** [state.Client.Do] *)
  Client_Do : Request -> Response + error;
  strings_TrimSpace : string -> string
}.

(** ** Byte-slice helpers *)

Definition nl : string := String "010"%char EmptyString.

Definition data_prefix : string := "data: ".

(** The terminator: the bytes of "data: [DONE]" and a newline. *)
Definition done_line : string := "data: [DONE]" ++ nl.

(** [s[n:]] for [n <= len(s)]. *)
Fixpoint slice_from (n : nat) (s : string) : string :=
  match n, s with
  | O, _ => s
  | S n', String _ s' => slice_from n' s'
  | S _, EmptyString => EmptyString
  end.

(** The first [delim] of [s], if any: the bytes up to and including it,
    and the bytes after it. *)
Fixpoint cut_at (delim : ascii) (s : string) : option (string * string) :=
  match s with
  | EmptyString => None
  | String c s' =>
      if Ascii.eqb c delim then Some (String c EmptyString, s')
      else match cut_at delim s' with
           | Some (line, rest) => Some (String c line, rest)
           | None => None
           end
  end.

(** [bufio.Reader.ReadBytes]: a line with its delimiter and the reader
    advanced past it, or what was left together with the reader's error. *)
Inductive ReadResult :=
| ReadLine (line : string) (reader' : Reader)
| ReadFail (line : string) (err : error).

Definition ReadBytes (reader : Reader) (delim : ascii) : ReadResult :=
  match cut_at delim (data reader) with
  | Some (line, rest) => ReadLine line {| data := rest; final := final reader |}
  | None => ReadFail (data reader) (final reader)
  end.

(** ** The stream decoder *)

Section Decoder.
Context {X : Externals}.

(** The local variables of [processStreamResponse] and the output so far. *)
Record Vars := {
  fullResponse : string;
  requestID : string;
  printed : list Output
}.

(** How one pass through the body of the [for] loop leaves it. *)
Inductive Control :=
| Continue (v : Vars)
| Break (v : Vars)
| Return (err : error) (out : list Output).

Definition print_if (b : bool) (o : Output) (out : list Output) : list Output :=
  if b then out ++ [o] else out.

(** The loop body of [processStreamResponse] from the length test on, for
    a line that [ReadBytes] returned without error. *)
Definition loop_body (debug streamOutput : bool) (line : string) (v : Vars)
  : Control :=
  if Nat.ltb (String.length line) 6 || negb (String.prefix data_prefix line) then
    Continue v
  else if String.eqb line done_line then
    Break v
  else
    match json_Unmarshal (slice_from 6 line) with
    | inr err => Return (Errorf_w msg_parse_json err) (printed v)
    | inl chunk =>
        let out := print_if debug (OutDebugChunk chunk) (printed v) in
        let requestID :=
          if String.eqb (requestID v) "" && negb (String.eqb (ID chunk) "")
          then ID chunk else requestID v in
        match Choices chunk with
        | choice0 :: _ =>
            let content := DeltaContent (Delta choice0) in
            let v' :=
              if negb (String.eqb content "") then
                {| fullResponse := fullResponse v ++ content;
                   requestID := requestID;
                   printed := print_if streamOutput (OutContent content) out |}
              else
                {| fullResponse := fullResponse v;
                   requestID := requestID;
                   printed := out |} in
            if String.eqb (FinishReason choice0) "stop" then Break v'
            else Continue v'
        | [] =>
            Continue {| fullResponse := fullResponse v;
                        requestID := requestID;
                        printed := out |}
        end
    end.

(** Keeps the equation of a scrutinee for the termination proof. *)
Definition inspect {A : Type} (a : A) : {b : A | a = b} := exist _ a eq_refl.

(** How the [for] loop ends: by [break], or by a [return] inside it. *)
Inductive LoopExit :=
| Broke (v : Vars)
| Returned (err : error) (out : list Output).

Equations? loop (debug streamOutput : bool) (reader : Reader) (v : Vars)
  : LoopExit by wf (String.length (data reader)) lt :=
  loop debug streamOutput reader v with inspect (ReadBytes reader "010"%char) => {
    | exist _ (ReadFail _ err) _ =>
        if errors_Is_EOF err then Broke v
        else Returned (Errorf_w msg_read_stream err) (printed v);
    | exist _ (ReadLine line reader') Hread =>
        match loop_body debug streamOutput line v with
        | Continue v' => loop debug streamOutput reader' v'
        | Break v' => Broke v'
        | Return err out => Returned err out
        end }.
Proof.
  (* every line read takes at least its delimiter off the stream *)
  clear loop. unfold ReadBytes in Hread.
  destruct (cut_at "010" (data reader)) as [[l r]|] eqn:E; [|discriminate].
  injection Hread as <- <-. simpl.
  revert l r E. induction (data reader) as [|c s IH]; intros l r; simpl;
    [discriminate|].
  destruct (Ascii.eqb c "010").
  - intros [= <- <-]. lia.
  - destruct (cut_at "010" s) as [[l' r']|]; [|discriminate].
    intros [= <- <-]. specialize (IH _ _ eq_refl). lia.
Qed.

(** The variables when the loop is entered. *)
Definition initial_vars : Vars :=
  {| fullResponse := ""; requestID := ""; printed := [] |}.

(** [processStreamResponse]: the triple it returns, and what it printed. *)
Definition processStreamResponse (body : Reader) (debug streamOutput : bool)
  : (string * string * option error) * list Output :=
  match loop debug streamOutput body initial_vars with
  | Returned err out => (("", "", Some err), out)
  | Broke v =>
      if Nat.eqb (String.length (fullResponse v)) 0 then
        (("", "", Some (errors_New msg_empty_reply)), printed v)
      else
        ((fullResponse v, requestID v, None), printed v)
  end.

End Decoder.

(** ** Session state *)

Definition system_preamble : Message :=
  {| Role := "system"; Content := "You are a helpful assistant." |}.

Definition user_message (text : string) : Message :=
  {| Role := "user"; Content := text |}.

Definition assistant_message (text : string) : Message :=
  {| Role := "assistant"; Content := text |}.

Definition set_Model (m : string) (s : ChatState) : ChatState :=
  {| Model := m; History := History s; CmdHistory := CmdHistory s;
     Debug := Debug s; LastRequestID := LastRequestID s;
     isSingleCmd := isSingleCmd s |}.

Definition set_History (h : list Message) (s : ChatState) : ChatState :=
  {| Model := Model s; History := h; CmdHistory := CmdHistory s;
     Debug := Debug s; LastRequestID := LastRequestID s;
     isSingleCmd := isSingleCmd s |}.

Definition set_CmdHistory (c : list string) (s : ChatState) : ChatState :=
  {| Model := Model s; History := History s; CmdHistory := c;
     Debug := Debug s; LastRequestID := LastRequestID s;
     isSingleCmd := isSingleCmd s |}.

Definition set_Debug (d : bool) (s : ChatState) : ChatState :=
  {| Model := Model s; History := History s; CmdHistory := CmdHistory s;
     Debug := d; LastRequestID := LastRequestID s;
     isSingleCmd := isSingleCmd s |}.

Definition set_LastRequestID (r : string) (s : ChatState) : ChatState :=
  {| Model := Model s; History := History s; CmdHistory := CmdHistory s;
     Debug := Debug s; LastRequestID := r;
     isSingleCmd := isSingleCmd s |}.

(** [strings.Split(s, sep)] for a separator of one byte. *)
Fixpoint strings_Split (s : string) (sep : ascii) : list string :=
  match s with
  | EmptyString => [EmptyString]
  | String c s' =>
      if Ascii.eqb c sep then EmptyString :: strings_Split s' sep
      else match strings_Split s' sep with
           | part :: parts => String c part :: parts
           | [] => [String c EmptyString]
           end
  end.

(** The [case] list of the [switch] in [handleModelSwitch]. *)
Definition known_models : list string :=
  ["qwen-plus"; "qwen-max"; "qwen-turbo"; "deepseek-r1"; "deepseek-v3"].

Definition is_known_model (name : string) : bool :=
  existsb (String.eqb name) known_models.

(** [fmt.Printf("%4d: %s\n", i+1, cmd)] over [state.CmdHistory]. *)
Fixpoint print_entries (i : nat) (cmds : list string) : list Output :=
  match cmds with
  | [] => []
  | cmd :: rest => OutCmdHistoryEntry (i + 1) cmd :: print_entries (S i) rest
  end.

Definition resetConversation (state : ChatState) : ChatState * list Output :=
  let state := set_History [system_preamble] state in
  let state := set_LastRequestID "" state in
  (state, [OutReset]).

Definition handleModelSwitch (input : string) (state : ChatState)
  : ChatState * list Output :=
  let parts := strings_Split input " "%char in
  if Nat.ltb (List.length parts) 2 then
    (state, [OutCurrentModel (Model state)])
  else
    let newModel := nth 1 parts "" in
    if is_known_model newModel then
      let state := set_Model newModel state in
      (state, [OutSwitched (Model state)])
    else
      (state, [OutUnsupportedModel]).

Definition toggleDebugMode (state : ChatState) : ChatState * list Output :=
  let state := set_Debug (negb (Debug state)) state in
  (state, [OutDebugMode (Debug state)]).

Definition showCommandHistory (state : ChatState) : list Output :=
  if Nat.eqb (List.length (CmdHistory state)) 0 then [OutNoCmdHistory]
  else OutCmdHistoryHeader :: print_entries 0 (CmdHistory state).

Definition printHelp : list Output := [OutHelp].

(** What a call of [handleCommand] comes to: [os.Exit], or a return. *)
Inductive Handled :=
| Exited (code : Z)
| Handle (handled : bool) (state : ChatState) (out : list Output).

Definition handleCommand (input : string) (state : ChatState) : Handled :=
  if String.eqb input "exit" || String.eqb input "/quit" then
    Exited 0
  else if String.eqb input "/reset" then
    let '(state, out) := resetConversation state in Handle true state out
  else if String.prefix "/model" input then
    let '(state, out) := handleModelSwitch input state in Handle true state out
  else if String.eqb input "/debug" then
    let '(state, out) := toggleDebugMode state in Handle true state out
  else if String.eqb input "/help" then
    Handle true state printHelp
  else if String.eqb input "/history" then
    Handle true state (showCommandHistory state)
  else
    Handle false state [].

(** ** Transport and turn orchestration *)

Section Session.
Context {X : Externals}.

(** [main]'s [chatState]. *)
Definition initial_state : ChatState :=
  {| Model := defaultModel;
     History := [system_preamble];
     CmdHistory := [];
     Debug := enableDebug;
     LastRequestID := "";
     isSingleCmd := negb (String.eqb command "") |}.

(** [req.Header.Set]. *)
Definition Header_Set (key value : string) (req : Request) : Request :=
  {| Method := Method req; URL := URL req;
     Header := (key, value)
               :: filter (fun kv => negb (String.eqb (fst kv) key)) (Header req);
     ReqBody := ReqBody req |}.

Definition streamChatCompletion (state : ChatState) (streamOutput : bool)
  : (string * string * option error) * list Output :=
  let payload := {| ReqModel := Model state;
                    Messages := History state;
                    Stream := true |} in
  match json_Marshal payload with
  | inr err => (("", "", Some (Errorf_w msg_encode err)), [])
  | inl jsonData =>
      let out := print_if (Debug state) (OutDebugRequest jsonData) [] in
      match http_NewRequest "POST" apiEndpoint jsonData with
      | inr err => (("", "", Some (Errorf_w msg_create_request err)), out)
      | inl req =>
          let req := Header_Set "Content-Type" "application/json" req in
          let req := Header_Set "Authorization" ("Bearer " ++ apiKey) req in
          match Client_Do req with
          | inr err => (("", "", Some (Errorf_w msg_send err)), out)
          | inl resp =>
              if negb (Z.eqb (StatusCode resp) http_StatusOK) then
                (* io.ReadAll(resp.Body), its error dropped *)
                let body := data (Body resp) in
                (("", "", Some (Errorf_API (StatusCode resp) body)), out)
              else
                let '(result, out') :=
                  processStreamResponse (Body resp) (Debug state) streamOutput in
                (result, out ++ out')
          end
      end
  end.

(** [printDebugInfo]; the elapsed time is not modelled. *)
Definition printDebugInfo (state : ChatState) : list Output :=
  [OutDebugInfo (LastRequestID state) (List.length (History state))
     (last (History state) {| Role := ""; Content := "" |})].

Definition processAIResponse (state : ChatState) (streamOutput : bool)
  : (string * option error) * ChatState * list Output :=
  let out0 := print_if (streamOutput && negb (isSingleCmd state))
                (OutAIPrefix (Model state)) [] in
  let '((aiReply, requestID, err), out1) :=
    streamChatCompletion state streamOutput in
  match err with
  | Some err => (("", Some err), state, out0 ++ out1)
  | None =>
      let state := set_LastRequestID requestID state in
      let state := set_History (History state ++ [assistant_message aiReply])
                     state in
      let out2 :=
        if isSingleCmd state then print_if (negb streamOutput) (OutReply aiReply) []
        else print_if (negb streamOutput) (OutReply aiReply) [] in
      let out3 := if Debug state then printDebugInfo state else [] in
      ((aiReply, None), state, out0 ++ out1 ++ out2 ++ out3)
  end.

(** The two statements that [executeSingleCommand] (lines 123-124) and
    [startInteractiveSession] (lines 170-171) share: the user message is
    appended to the history, then [processAIResponse] runs. *)
Definition run_turn (state : ChatState) (text : string) (streamOutput : bool)
  : (string * option error) * ChatState * list Output :=
  let state := set_History (History state ++ [user_message text]) state in
  processAIResponse state streamOutput.

(** What a call of [executeSingleCommand] comes to. *)
Inductive Executed :=
| ExecExit (code : Z)
| ExecReturn (err : option error) (state : ChatState) (out : list Output).

Definition executeSingleCommand (state : ChatState) (cmd : string) : Executed :=
  let cmd := strings_TrimSpace cmd in
  if String.eqb cmd "" then
    ExecReturn (Some (errors_New msg_empty_command)) state []
  else
    let state := set_CmdHistory (CmdHistory state ++ [cmd]) state in
    match handleCommand cmd state with
    | Exited code => ExecExit code
    | Handle true state out => ExecReturn None state out
    | Handle false state out =>
        let '((_, err), state, out') := run_turn state cmd enableStream in
        ExecReturn err state (out ++ out')
    end.

(** What [rl.Readline] returns. *)
Inductive Readline :=
| RlLine (input : string)
| RlInterrupt (input : string)      (* readline.ErrInterrupt *)
| RlEOF                             (* io.EOF *)
| RlError (err : error).

(** How one pass through the loop of [startInteractiveSession] leaves it. *)
Inductive Iteration :=
| IterContinue (state : ChatState) (out : list Output)
| IterBreak (state : ChatState)
| IterExit (code : Z).

Definition session_iteration (rl : Readline) (state : ChatState) : Iteration :=
  match rl with
  | RlInterrupt input =>
      if Nat.eqb (String.length input) 0 then IterBreak state
      else IterContinue state []
  | RlEOF => IterBreak state
  | RlError err => IterContinue state [OutError err]
  | RlLine input =>
      let input := strings_TrimSpace input in
      if String.eqb input "" then IterContinue state []
      else
        let state := set_CmdHistory (CmdHistory state ++ [input]) state in
        match handleCommand input state with
        | Exited code => IterExit code
        | Handle true state out => IterContinue state out
        | Handle false state out =>
            let '((_, err), state, out') := run_turn state input true in
            let out_err := match err with
                           | Some err => [OutError err]
                           | None => []
                           end in
            IterContinue state (out ++ out' ++ out_err ++ [OutNewline])
        end
  end.

End Session.

(** ** A concrete environment

    Enough of the outside world to run the functions above: the JSON texts
    of three chunks with the [StreamResponse] values [json.Unmarshal] fills
    in for them, a service that answers with a fixed event stream, and one
    that is unreachable. *)
Module Demo.

Definition quote : string := String "034"%char EmptyString.

Definition jstr (s : string) : string := quote ++ s ++ quote.

(** The text [{"id":<id>,"choices":[{"delta":{"content":<content>}}]}],
    with [,"finish_reason":<finish>] in the choice when [finish] is not
    empty. *)
Definition chunk_json (id content finish : string) : string :=
  "{" ++ jstr "id" ++ ":" ++ jstr id ++ "," ++ jstr "choices" ++ ":[{"
      ++ jstr "delta" ++ ":{" ++ jstr "content" ++ ":" ++ jstr content ++ "}"
      ++ (if String.eqb finish "" then ""
          else "," ++ jstr "finish_reason" ++ ":" ++ jstr finish)
      ++ "}]}".

Definition chunk (id content finish : string) : StreamResponse :=
  {| ID := id; RespModel := "";
     Choices := [{| Delta := {| DeltaContent := content |};
                   FinishReason := finish |}];
     Usage := {| PromptTokens := 0; CompletionTokens := 0; TotalTokens := 0 |} |}.

Definition known_chunks : list (string * string * string) :=
  [("r1", "Hel", ""); ("r1", "lo", ""); ("r1", "", ""); ("r1", "", "stop");
   ("r1", "lo", "stop"); ("", "Hi", ""); ("r2", "!", "")].

(** [json.Unmarshal] on the texts of [known_chunks] followed by a newline;
    every other text is refused. *)
Fixpoint lookup_chunk (table : list (string * string * string))
  (payload : string) : StreamResponse + error :=
  match table with
  | [] => inr (errors_New "invalid character")
  | (id, content, finish) :: table' =>
      if String.eqb payload (chunk_json id content finish ++ nl)
      then inl (chunk id content finish)
      else lookup_chunk table' payload
  end.

(** The event line of a chunk. *)
Definition event (id content finish : string) : string :=
  data_prefix ++ chunk_json id content finish ++ nl.

Definition hello_stream : string :=
  event "r1" "Hel" "" ++ event "r1" "lo" "" ++ done_line.

Definition new_request (method url body : string) : Request + error :=
  if String.eqb url "" then inr (errors_New "empty url")
  else inl {| Method := method; URL := url; Header := []; ReqBody := body |}.

(** Blanks at the start of [s] removed. *)
Fixpoint trim_left (s : string) : string :=
  match s with
  | String " "%char s' => trim_left s'
  | _ => s
  end.

Definition reverse (s : string) : string :=
  string_of_list_ascii (rev (list_ascii_of_string s)).

Definition trim (s : string) : string :=
  reverse (trim_left (reverse (trim_left s))).

#[local] Instance online : Externals :=
  {| apiKey := "sk-demo";
     defaultModel := "qwen-plus";
     apiEndpoint := "https://example.invalid/v1/chat/completions";
     enableStream := false;
     enableDebug := false;
     command := "";
     json_Unmarshal := lookup_chunk known_chunks;
     json_Marshal := fun payload => inl (ReqModel payload);
     http_NewRequest := new_request;
     Client_Do := fun _ =>
       inl {| StatusCode := 200;
              Body := {| data := hello_stream; final := io_EOF |} |};
     strings_TrimSpace := trim |}.

#[local] Instance offline : Externals :=
  {| apiKey := "sk-demo";
     defaultModel := "qwen-plus";
     apiEndpoint := "https://example.invalid/v1/chat/completions";
     enableStream := false;
     enableDebug := false;
     command := "";
     json_Unmarshal := lookup_chunk known_chunks;
     json_Marshal := fun payload => inl (ReqModel payload);
     http_NewRequest := new_request;
     Client_Do := fun _ => inr (errors_New "connection refused");
     strings_TrimSpace := trim |}.

(** The service answers, but with an event that is not JSON. *)
#[local] Instance garbled : Externals :=
  {| apiKey := "sk-demo";
     defaultModel := "qwen-plus";
     apiEndpoint := "https://example.invalid/v1/chat/completions";
     enableStream := false;
     enableDebug := false;
     command := "";
     json_Unmarshal := lookup_chunk known_chunks;
     json_Marshal := fun payload => inl (ReqModel payload);
     http_NewRequest := new_request;
     Client_Do := fun _ =>
       inl {| StatusCode := 200;
              Body := {| data := event "r1" "Hel" "" ++ "data: {oops" ++ nl;
                         final := io_EOF |} |};
     strings_TrimSpace := trim |}.

End Demo.

(** ** Streams as sequences of lines *)

(** [s] is one newline-terminated line: its only newline is its last byte. *)
Fixpoint is_line (s : string) : bool :=
  match s with
  | EmptyString => false
  | String c s' => if Ascii.eqb c "010" then String.eqb s' "" else is_line s'
  end.

Fixpoint no_newline (s : string) : bool :=
  match s with
  | EmptyString => true
  | String c s' => negb (Ascii.eqb c "010") && no_newline s'
  end.

(** [s] is empty or ends with a newline: no unterminated bytes at its end. *)
Fixpoint complete (s : string) : bool :=
  match s with
  | EmptyString => true
  | String c EmptyString => Ascii.eqb c "010"
  | String _ s' => complete s'
  end.

(** The bytes of a sequence of lines or of text fragments, in order. *)
Definition join (parts : list string) : string :=
  fold_right String.append EmptyString parts.

(** The test of the first [if] of the loop body: the line is skipped. *)
Definition skippable (line : string) : bool :=
  Nat.ltb (String.length line) 6 || negb (String.prefix data_prefix line).

(** The first choice of the record ends the stream. *)
Definition stops (chunk : StreamResponse) : bool :=
  match Choices chunk with
  | choice0 :: _ => String.eqb (FinishReason choice0) "stop"
  | [] => false
  end.

(** The [delta.content] of the first choice; empty when there is none. *)
Definition first_content (chunk : StreamResponse) : string :=
  match Choices chunk with
  | choice0 :: _ => DeltaContent (Delta choice0)
  | [] => ""
  end.

(** The records up to and including the first one that [stops]. *)
Fixpoint up_to_stop (chunks : list StreamResponse) : list StreamResponse :=
  match chunks with
  | [] => []
  | c :: cs => if stops c then [c] else c :: up_to_stop cs
  end.

(** The first non-empty [id] of the records; empty when there is none. *)
Fixpoint first_id (chunks : list StreamResponse) : string :=
  match chunks with
  | [] => ""
  | c :: cs => if String.eqb (ID c) "" then first_id cs else ID c
  end.

Section Lines.
Context {X : Externals}.

(** What the loop body takes a line for. *)
Inductive LineKind :=
| Skip
| Terminator
| Event (chunk : StreamResponse)
| Malformed (err : error).

Definition classify (line : string) : LineKind :=
  if skippable line then Skip
  else if String.eqb line done_line then Terminator
  else match json_Unmarshal (slice_from 6 line) with
       | inl chunk => Event chunk
       | inr err => Malformed err
       end.

(** The records of the event lines, in order. *)
Fixpoint events (lines : list string) : list StreamResponse :=
  match lines with
  | [] => []
  | l :: ls => match classify l with
               | Event chunk => chunk :: events ls
               | _ => events ls
               end
  end.

(** A line of a well-formed event stream before its end: a whole line that
    is skipped or carries a record. *)
Definition well_formed (line : string) : Prop :=
  is_line line = true /\
  (classify line = Skip \/ exists chunk, classify line = Event chunk).

(** A line after which the decoder reads on: it is skipped, or it carries
    a record that does not stop the stream. *)
Definition passed (line : string) : Prop :=
  is_line line = true /\
  (classify line = Skip \/
   exists chunk, classify line = Event chunk /\ stops chunk = false).

(** The variables after the loop body has taken in the record of an event
    line: the id is captured if none was, the text of the first choice is
    appended, and both may be printed. *)
Definition absorb (debug streamOutput : bool) (chunk : StreamResponse)
  (v : Vars) : Vars :=
  let out := print_if debug (OutDebugChunk chunk) (printed v) in
  {| fullResponse := fullResponse v ++ first_content chunk;
     requestID := if String.eqb (requestID v) "" then ID chunk
                  else requestID v;
     printed := if String.eqb (first_content chunk) "" then out
                else print_if streamOutput (OutContent (first_content chunk))
                       out |}.

(** The loop body over the lines of a stream, as long as it continues. *)
Fixpoint run_lines (debug streamOutput : bool) (lines : list string) (v : Vars)
  : Control :=
  match lines with
  | [] => Continue v
  | l :: ls =>
      match loop_body debug streamOutput l v with
      | Continue v' => run_lines debug streamOutput ls v'
      | other => other
      end
  end.

(** The result triple of a decode. *)
Definition Decode (body : Reader) (debug streamOutput : bool)
  : string * string * option error :=
  fst (processStreamResponse body debug streamOutput).

End Lines.

(** The session invariant: the history is not empty and its first message
    has the role "system". *)
Definition starts_with_system (state : ChatState) : bool :=
  match History state with
  | first :: _ => String.eqb (Role first) "system"
  | [] => false
  end.

(** From [state] to [state'], a step keeps the first message of the
    history where it is. *)
Definition keeps_first (state state' : ChatState) : Prop :=
  starts_with_system state' = true /\
  hd_error (History state') = hd_error (History state).

(** From [state] to [state'], a step keeps the first message or puts the
    whole history back to the system preamble. *)
Definition keeps_or_resets (state state' : ChatState) : Prop :=
  starts_with_system state' = true /\
  (hd_error (History state') = hd_error (History state) \/
   History state' = [system_preamble]).

(** ** The rest of the program *)

(** The fragments that [fmt.Print(content)] wrote, in order. *)
Fixpoint contents (out : list Output) : list string :=
  match out with
  | [] => []
  | OutContent content :: rest => content :: contents rest
  | _ :: rest => contents rest
  end.

(** The replies that [fmt.Println(aiReply)] wrote, in order. *)
Fixpoint replies (out : list Output) : list string :=
  match out with
  | [] => []
  | OutReply aiReply :: rest => aiReply :: replies rest
  | _ :: rest => replies rest
  end.

(** What the two print sites of the reply text have written, for a text
    decoded under the flags [debug] and [streamOutput]: the fragments, none
    of them empty, make up the text when streaming is on and there is none
    when it is off; no whole reply; and, without debugging, nothing else. *)
Definition fragments_printed (debug streamOutput : bool) (text : string)
  (out : list Output) : Prop :=
  join (contents out) = (if streamOutput then text else "") /\
  (if streamOutput then True else contents out = []) /\
  replies out = [] /\
  (if debug then True else out = map OutContent (contents out)) /\
  Forall (fun content => content <> "") (contents out).

(** Every field but the model is the same in [state] and [state']. *)
Definition same_but_model (state state' : ChatState) : Prop :=
  History state' = History state /\
  CmdHistory state' = CmdHistory state /\
  Debug state' = Debug state /\
  LastRequestID state' = LastRequestID state /\
  isSingleCmd state' = isSingleCmd state.

(** The lines that [ReadBytes] finds in a stream, and the bytes after the
    last newline. *)
Fixpoint lines_of (s : string) : list string * string :=
  match s with
  | EmptyString => ([], EmptyString)
  | String c s' =>
      let '(lines, tail) := lines_of s' in
      if Ascii.eqb c "010" then (String c EmptyString :: lines, tail)
      else match lines with
           | l :: lines' => (String c l :: lines', tail)
           | [] => ([], String c tail)
           end
  end.

(** The variables and the outcome of the loop body with the output left
    out. *)
Definition mute (v : Vars) : Vars :=
  {| fullResponse := fullResponse v; requestID := requestID v; printed := [] |}.

Definition mute_control (c : Control) : Control :=
  match c with
  | Continue v => Continue (mute v)
  | Break v => Break (mute v)
  | Return err _ => Return err []
  end.

(** The errors that the source itself makes: the five wrapped ones, the
    API error for a status that is not 200, and the empty reply. *)
Definition made_by_source (err : error) : Prop :=
  match err with
  | Errorf_w prefix _ =>
      In prefix [msg_encode; msg_create_request; msg_send; msg_read_stream;
                 msg_parse_json]
  | Errorf_API status _ => status <> http_StatusOK
  | errors_New msg => msg = msg_empty_reply
  | io_EOF => False
  end.

(** [s] holds no blank. *)
Fixpoint no_space (s : string) : bool :=
  match s with
  | EmptyString => true
  | String c s' => negb (Ascii.eqb c " ") && no_space s'
  end.

(** No message of the history has an empty content. *)
Definition no_blank_message (state : ChatState) : bool :=
  forallb (fun m => negb (String.eqb (Content m) "")) (History state).

(** What one result of [rl.Readline] adds to the command log. *)
Definition logged {X : Externals} (rl : Readline) : list string :=
  match rl with
  | RlLine input =>
      if String.eqb (strings_TrimSpace input) "" then []
      else [strings_TrimSpace input]
  | _ => []
  end.

(** The results of [rl.Readline] before the first one at which the loop of
    [startInteractiveSession] breaks: [io.EOF], or an interrupt on an empty
    line. *)
Fixpoint until_break (inputs : list Readline) : list Readline :=
  match inputs with
  | [] => []
  | RlEOF :: _ => []
  | RlInterrupt input :: rest =>
      if Nat.eqb (String.length input) 0 then []
      else RlInterrupt input :: until_break rest
  | rl :: rest => rl :: until_break rest
  end.

(** [readline.PrefixCompleter]: a tree of items. *)
#[warning="-register-all"]
Inductive PrefixCompleter :=
| PcItem (name : string) (children : list PrefixCompleter).

Definition NewPrefixCompleter (items : list PrefixCompleter) : PrefixCompleter :=
  PcItem "" items.

Definition getCompleter : PrefixCompleter :=
  NewPrefixCompleter
    [PcItem "/model"
       [PcItem "qwen-plus" []; PcItem "qwen-max" []; PcItem "qwen-turbo" [];
        PcItem "deepseek-r1" []; PcItem "deepseek-v3" []];
     PcItem "/debug" []; PcItem "/reset" []; PcItem "/help" [];
     PcItem "/history" []; PcItem "exit" []].

Definition item_name (item : PrefixCompleter) : string :=
  match item with PcItem name _ => name end.

Definition item_children (item : PrefixCompleter) : list PrefixCompleter :=
  match item with PcItem _ children => children end.

(** The input lines an item completes to: its name, and its name followed
    by a blank and a line of one of its children. *)
Fixpoint completions (item : PrefixCompleter) : list string :=
  match item with
  | PcItem name children =>
      name :: map (fun line : string => (name ++ " " ++ line)%string)
                (flat_map completions children)
  end.

(** The terminal side of the program: the [-history] flag, [os.TempDir],
    the error of [readline.NewEx] if it fails, and what [rl.Readline]
    returns, call after call; after the last of them the input is closed. *)
Record Terminal := {
  historyFile : string;
  os_TempDir : string;
  readline_NewEx : option error;
  readline_results : list Readline
}.

Definition getHistoryFilePath (T : Terminal) : string :=
  if negb (String.eqb (historyFile T) "") then historyFile T
  else os_TempDir T ++ "/abls_history.txt".

(** What [main] and [startInteractiveSession] write besides the [Output]
    of the functions they call. *)
Inductive Console :=
| Stdout (o : Output)
| ErrMissingKey                          (* "错误：必须提供API密钥", flag.Usage() *)
| ErrInit (err : error)                  (* "初始化命令行失败: %v" *)
| ErrCommand (err : error)               (* "错误:" err, in main *)
| FlagError                              (* flag.Parse: the error and the usage *)
| FlagHelp                               (* flag.Parse: the usage, on -h *)
| Welcome (model : string) (debug : bool) (historyFile : string).

Definition printWelcomeMessage (T : Terminal) (state : ChatState) : list Console :=
  [Welcome (Model state) (Debug state) (getHistoryFilePath T)].

(** How a session ends: the loop was left by [break], or [os.Exit] ran. *)
Inductive SessionEnd :=
| SessionBreak (state : ChatState)
| SessionExit (code : Z).

(** The service over time: what [state.Client.Do] returns for a request
    sent during pass [n] of the loop; the same request may fail at one time
    and succeed at another. *)
Definition Service : Type := nat -> Request -> Response + error.

(** The environment with [client] for [state.Client.Do]. *)
Definition with_Client_Do (X : Externals)
  (client : Request -> Response + error) : Externals :=
  {| apiKey := apiKey;
     defaultModel := defaultModel;
     apiEndpoint := apiEndpoint;
     enableStream := enableStream;
     enableDebug := enableDebug;
     command := command;
     json_Unmarshal := json_Unmarshal;
     json_Marshal := json_Marshal;
     http_NewRequest := http_NewRequest;
     Client_Do := client;
     strings_TrimSpace := strings_TrimSpace |}.

(** The [for] loop of [startInteractiveSession] over the results of
    [rl.Readline], from pass [clock] on; each pass meets the service as it
    is at that time. *)
Fixpoint session_loop {X : Externals} (service : Service) (clock : nat)
  (inputs : list Readline) (state : ChatState) : SessionEnd * list Output :=
  match inputs with
  | [] => (SessionBreak state, [])
  | rl :: rest =>
      match session_iteration (X := with_Client_Do X (service clock)) rl state with
      | IterContinue state' out =>
          let '(ended, out') := session_loop service (S clock) rest state' in
          (ended, out ++ out')
      | IterBreak state' => (SessionBreak state', [])
      | IterExit code => (SessionExit code, [])
      end
  end.

Definition startInteractiveSession {X : Externals} (service : Service)
  (T : Terminal) (state : ChatState) : SessionEnd * list Console :=
  match readline_NewEx T with
  | Some err => (SessionExit 1, [ErrInit err])
  | None =>
      let '(ended, out) := session_loop service 0 (readline_results T) state in
      (ended, printWelcomeMessage T state ++ map Stdout out)
  end.

(** [validateConfig]: [Some] when it ends the process. *)
Definition validateConfig {X : Externals} : option (Z * list Console) :=
  if String.eqb apiKey "" then Some (1%Z, [ErrMissingKey]) else None.

(** What [flag.Parse] comes to on the default flag set, which exits on
    error: the flags are set, or the process ends with status 0 after the
    usage (on -h or -help), or with status 2 after the error and the usage
    (on a command line that does not parse). *)
Inductive Parsed :=
| ParseOk
| ParseHelp
| ParseError.

Definition flag_Parse (parsed : Parsed) : option (Z * list Console) :=
  match parsed with
  | ParseOk => None
  | ParseHelp => Some (0%Z, [FlagHelp])
  | ParseError => Some (2%Z, [FlagError])
  end.

(** [main]: the exit status of the process and what it wrote. The flags of
    the environment are the ones [flag.Parse] has set. *)
Definition main {X : Externals} (parsed : Parsed) (service : Service)
  (T : Terminal) : Z * list Console :=
  match flag_Parse parsed with
  | Some exited => exited
  | None =>
      match validateConfig with
      | Some exited => exited
      | None =>
          let chatState := initial_state in
          if negb (String.eqb command "") then
            match executeSingleCommand (X := with_Client_Do X (service 0))
                    chatState command with
            | ExecExit code => (code, [])
            | ExecReturn (Some err) _ out =>
                (1%Z, map Stdout out ++ [ErrCommand err])
            | ExecReturn None _ out => (0%Z, map Stdout out)
            end
          else
            match startInteractiveSession service T chatState with
            | (SessionExit code, out) => (code, out)
            | (SessionBreak _, out) => (0%Z, out)
            end
      end
  end.

(** ** A service that answers with several choices *)
Module Demo2.

(** The text
    [{"id":<id>,"choices":[{"delta":{"content":<c0>}},{"delta":{"content":<c1>}}]}]. *)
Definition two_choices_json (id c0 c1 : string) : string :=
  "{" ++ Demo.jstr "id" ++ ":" ++ Demo.jstr id ++ "," ++ Demo.jstr "choices"
      ++ ":[{" ++ Demo.jstr "delta" ++ ":{" ++ Demo.jstr "content" ++ ":"
      ++ Demo.jstr c0 ++ "}},{" ++ Demo.jstr "delta" ++ ":{"
      ++ Demo.jstr "content" ++ ":" ++ Demo.jstr c1 ++ "}}]}".

Definition two_choices (id c0 c1 : string) : StreamResponse :=
  {| ID := id; RespModel := "";
     Choices := [{| Delta := {| DeltaContent := c0 |}; FinishReason := "" |};
                 {| Delta := {| DeltaContent := c1 |}; FinishReason := "" |}];
     Usage := {| PromptTokens := 0; CompletionTokens := 0; TotalTokens := 0 |} |}.

(** [json.Unmarshal] on one text with two choices and on the texts that
    [Demo.lookup_chunk] knows. *)
Definition unmarshal (payload : string) : StreamResponse + error :=
  if String.eqb payload (two_choices_json "r1" "Hel" "Bye" ++ nl)
  then inl (two_choices "r1" "Hel" "Bye")
  else Demo.lookup_chunk Demo.known_chunks payload.

Definition two_choices_event : string :=
  data_prefix ++ two_choices_json "r1" "Hel" "Bye" ++ nl.

#[local] Instance several : Externals :=
  {| apiKey := "sk-demo";
     defaultModel := "qwen-plus";
     apiEndpoint := "https://example.invalid/v1/chat/completions";
     enableStream := false;
     enableDebug := false;
     command := "";
     json_Unmarshal := unmarshal;
     json_Marshal := fun payload => inl (ReqModel payload);
     http_NewRequest := Demo.new_request;
     Client_Do := fun _ =>
       inl {| StatusCode := 200;
              Body := {| data := two_choices_event ++ done_line;
                         final := io_EOF |} |};
     strings_TrimSpace := Demo.trim |}.

(** A terminal on which a user says hello, looks at the model, resets and
    leaves. *)
Definition terminal : Terminal :=
  {| historyFile := "";
     os_TempDir := "/tmp";
     readline_NewEx := None;
     readline_results :=
       [RlLine "hi"; RlLine "  "; RlLine " /model qwen-max"; RlInterrupt "x";
        RlLine "/reset"; RlEOF; RlLine "never read"] |}.

(** A service that cannot be reached at first and answers from the second
    pass on. *)
Definition flaky : Service :=
  fun pass _ =>
    if Nat.eqb pass 0 then inr (errors_New "connection refused")
    else inl {| StatusCode := 200;
                Body := {| data := Demo.hello_stream; final := io_EOF |} |}.

(** A terminal on which the same question is asked twice. *)
Definition retry : Terminal :=
  {| historyFile := "";
     os_TempDir := "/tmp";
     readline_NewEx := None;
     readline_results := [RlLine "hi"; RlLine "/reset"; RlLine "hi"] |}.

End Demo2.

(** ** Strings and lines *)

Lemma append_nil_r (s : string) : (s ++ "")%string = s.
Proof. induction s as [|c s IH]; simpl; [reflexivity | now rewrite IH]. Qed.

Lemma append_assoc (a b c : string) :
  ((a ++ b) ++ c)%string = (a ++ (b ++ c))%string.
Proof. induction a as [|x a IH]; simpl; [reflexivity | now rewrite IH]. Qed.

Lemma length_zero_iff (s : string) :
  Nat.eqb (String.length s) 0 = true <-> s = "".
Proof. destruct s; simpl; split; intros H; try reflexivity; discriminate. Qed.

Lemma cut_at_line (l rest : string) :
  is_line l = true -> cut_at "010" (l ++ rest)%string = Some (l, rest).
Proof.
  induction l as [|c l IH]; simpl; [discriminate|].
  destruct (Ascii.eqb c "010").
  - intros H. apply String.eqb_eq in H. subst l. reflexivity.
  - intros H. rewrite (IH H). reflexivity.
Qed.

Lemma cut_at_no_newline (s : string) :
  no_newline s = true -> cut_at "010" s = None.
Proof.
  induction s as [|c s IH]; simpl; [reflexivity|].
  destruct (Ascii.eqb c "010"); simpl; [discriminate|].
  intros H. now rewrite (IH H).
Qed.

Lemma join_app (xs ys : list string) :
  join (xs ++ ys) = (join xs ++ join ys)%string.
Proof.
  induction xs as [|x xs IH]; simpl; [reflexivity|].
  now rewrite IH, append_assoc.
Qed.

Section LoopFacts.
Context {X : Externals}.

(** The loop, one [ReadBytes] at a time. *)
Lemma loop_step debug streamOutput reader v :
  loop debug streamOutput reader v =
  match ReadBytes reader "010" with
  | ReadFail _ err =>
      if errors_Is_EOF err then Broke v
      else Returned (Errorf_w msg_read_stream err) (printed v)
  | ReadLine line reader' =>
      match loop_body debug streamOutput line v with
      | Continue v' => loop debug streamOutput reader' v'
      | Break v' => Broke v'
      | Return err out => Returned err out
      end
  end.
Proof.
  funelim (loop debug streamOutput reader v);
    match goal with H : ReadBytes _ _ = _ |- _ => rewrite H end; reflexivity.
Qed.

Lemma loop_line debug streamOutput l rest e v :
  is_line l = true ->
  loop debug streamOutput {| data := l ++ rest; final := e |} v =
  match loop_body debug streamOutput l v with
  | Continue v' => loop debug streamOutput {| data := rest; final := e |} v'
  | Break v' => Broke v'
  | Return err out => Returned err out
  end.
Proof.
  intros Hl. rewrite loop_step. unfold ReadBytes. simpl.
  now rewrite (cut_at_line _ rest Hl).
Qed.

Lemma loop_end debug streamOutput s e v :
  no_newline s = true ->
  loop debug streamOutput {| data := s; final := e |} v =
  if errors_Is_EOF e then Broke v
  else Returned (Errorf_w msg_read_stream e) (printed v).
Proof.
  intros Hs. rewrite loop_step. unfold ReadBytes. simpl.
  now rewrite (cut_at_no_newline _ Hs).
Qed.

Lemma loop_lines debug streamOutput lines rest e v :
  Forall (fun l => is_line l = true) lines ->
  loop debug streamOutput {| data := join lines ++ rest; final := e |} v =
  match run_lines debug streamOutput lines v with
  | Continue v' => loop debug streamOutput {| data := rest; final := e |} v'
  | Break v' => Broke v'
  | Return err out => Returned err out
  end.
Proof.
  intros Hall. revert v. induction Hall as [|l ls Hl _ IH]; intros v; simpl.
  - reflexivity.
  - rewrite append_assoc, (loop_line _ _ _ _ _ _ Hl).
    destruct (loop_body debug streamOutput l v); auto.
Qed.

(** The loop body, by the kind of the line. *)
Lemma loop_body_classify debug streamOutput l v :
  loop_body debug streamOutput l v =
  match classify l with
  | Skip => Continue v
  | Terminator => Break v
  | Malformed err => Return (Errorf_w msg_parse_json err) (printed v)
  | Event chunk =>
      if stops chunk then Break (absorb debug streamOutput chunk v)
      else Continue (absorb debug streamOutput chunk v)
  end.
Proof.
  unfold loop_body, classify, skippable.
  destruct (Nat.ltb (String.length l) 6 || negb (String.prefix data_prefix l));
    [reflexivity|].
  destruct (String.eqb l done_line); [reflexivity|].
  destruct (json_Unmarshal (slice_from 6 l)) as [chunk|err]; [|reflexivity].
  assert (Hid : (if String.eqb (requestID v) "" && negb (String.eqb (ID chunk) "")
                 then ID chunk else requestID v) =
                (if String.eqb (requestID v) "" then ID chunk else requestID v)).
  { destruct (String.eqb_spec (requestID v) "") as [Hr|Hr]; simpl; [|reflexivity].
    destruct (String.eqb_spec (ID chunk) "") as [Hi|Hi]; simpl; congruence. }
  rewrite Hid. unfold absorb, stops, first_content.
  destruct (Choices chunk) as [|choice0 rest]; simpl.
  - now rewrite append_nil_r.
  - destruct (String.eqb_spec (DeltaContent (Delta choice0)) "") as [Hc|Hc]; simpl.
    + rewrite Hc, append_nil_r. reflexivity.
    + reflexivity.
Qed.

Lemma run_lines_cons debug streamOutput l ls v :
  run_lines debug streamOutput (l :: ls) v =
  match classify l with
  | Skip => run_lines debug streamOutput ls v
  | Terminator => Break v
  | Malformed err => Return (Errorf_w msg_parse_json err) (printed v)
  | Event chunk =>
      if stops chunk then Break (absorb debug streamOutput chunk v)
      else run_lines debug streamOutput ls (absorb debug streamOutput chunk v)
  end.
Proof.
  simpl. rewrite loop_body_classify.
  destruct (classify l) as [| |chunk|err]; try reflexivity.
  destruct (stops chunk); reflexivity.
Qed.

Lemma events_cons l ls :
  events (l :: ls) =
  match classify l with
  | Event chunk => chunk :: events ls
  | _ => events ls
  end.
Proof. reflexivity. Qed.

(** Over well-formed lines the loop body gathers the text and the first id
    of the records up to the first one that stops. *)
Lemma run_lines_well_formed debug streamOutput lines v :
  Forall well_formed lines ->
  exists out,
    run_lines debug streamOutput lines v =
    (if existsb stops (events lines) then Break else Continue)
      {| fullResponse :=
           fullResponse v
           ++ join (map first_content (up_to_stop (events lines)));
         requestID :=
           if String.eqb (requestID v) ""
           then first_id (up_to_stop (events lines)) else requestID v;
         printed := out |}.
Proof.
  intros Hall. revert v.
  induction Hall as [|l ls [_ Hl] _ IH]; intros v.
  - exists (printed v). simpl. rewrite append_nil_r.
    destruct v as [f r p]; simpl.
    destruct (String.eqb_spec r "") as [->|_]; reflexivity.
  - rewrite run_lines_cons, events_cons.
    destruct Hl as [Hl|[chunk Hl]]; rewrite Hl; [apply IH|].
    simpl. destruct (stops chunk) eqn:Hs; simpl.
    + eexists. unfold absorb. simpl. rewrite append_nil_r.
      f_equal. f_equal.
      destruct (String.eqb (requestID v) ""); [|reflexivity].
      now destruct (String.eqb_spec (ID chunk) "").
    + destruct (IH (absorb debug streamOutput chunk v)) as [out Hout].
      exists out. rewrite Hout. unfold absorb. simpl.
      rewrite append_assoc. f_equal. f_equal.
      destruct (String.eqb_spec (requestID v) "") as [Hr|Hr].
      * reflexivity.
      * apply String.eqb_neq in Hr. now rewrite Hr.
Qed.

(** Over lines that are all passed the loop body continues. *)
Lemma run_lines_passed debug streamOutput lines v :
  Forall passed lines ->
  exists v', run_lines debug streamOutput lines v = Continue v'.
Proof.
  intros Hall. revert v.
  induction Hall as [|l ls [_ Hl] _ IH]; intros v.
  - now exists v.
  - rewrite run_lines_cons.
    destruct Hl as [Hl|[chunk [Hl Hs]]]; rewrite Hl; [apply IH|].
    rewrite Hs. apply IH.
Qed.

(** Where the loop body continues over all the lines, the id it holds
    afterwards is the one it held, or else the first one of the records. *)
Lemma run_lines_continue_id debug streamOutput lines v v' :
  run_lines debug streamOutput lines v = Continue v' ->
  requestID v' =
  if String.eqb (requestID v) "" then first_id (events lines) else requestID v.
Proof.
  revert v. induction lines as [|l ls IH]; intros v.
  - simpl. intros [= <-]. now destruct (String.eqb_spec (requestID v) "").
  - rewrite run_lines_cons, events_cons.
    destruct (classify l) as [| |chunk|err]; try discriminate; [apply IH|].
    destruct (stops chunk); [discriminate|].
    intros H. rewrite (IH _ H). unfold absorb. simpl.
    destruct (String.eqb_spec (requestID v) "") as [Hr|Hr].
    + reflexivity.
    + apply String.eqb_neq in Hr. now rewrite Hr.
Qed.

Lemma loop_body_done debug streamOutput v :
  loop_body debug streamOutput done_line v = Break v.
Proof. reflexivity. Qed.

End LoopFacts.

(** ** Unterminated bytes at the end of a stream *)

Lemma cut_at_append delim s t l r :
  cut_at delim s = Some (l, r) ->
  cut_at delim (s ++ t)%string = Some (l, (r ++ t)%string).
Proof.
  revert l. induction s as [|c s IH]; intros l; simpl; [discriminate|].
  destruct (Ascii.eqb c delim).
  - now intros [= <- <-].
  - destruct (cut_at delim s) as [[l' r']|]; [|discriminate].
    intros [= <- <-]. now rewrite (IH _ eq_refl).
Qed.

Lemma cut_at_complete_none s :
  complete s = true -> cut_at "010" s = None -> s = "".
Proof.
  induction s as [|c s IH]; [reflexivity|]. simpl cut_at.
  destruct (Ascii.eqb c "010") eqn:Hc; [discriminate|].
  intros Hs Hcut. destruct s as [|c' s]; [simpl in Hs; congruence|].
  destruct (cut_at "010" (String c' s)) as [[l r]|] eqn:E; [discriminate|].
  assert (String c' s = "") by (apply IH; [exact Hs | reflexivity]).
  discriminate.
Qed.

Lemma cut_at_complete_rest s l r :
  complete s = true -> cut_at "010" s = Some (l, r) -> complete r = true.
Proof.
  revert l. induction s as [|c s IH]; intros l; [discriminate|]. simpl cut_at.
  destruct (Ascii.eqb c "010") eqn:Hc.
  - intros Hs [= <- <-]. destruct s; [reflexivity | exact Hs].
  - intros Hs. destruct s as [|c' s]; [discriminate|].
    destruct (cut_at "010" (String c' s)) as [[l' r']|] eqn:E; [|discriminate].
    intros [= <- <-]. apply (IH l'); [exact Hs | reflexivity].
Qed.

Lemma loop_ignores_tail {X : Externals} debug streamOutput tail reader v :
  complete (data reader) = true ->
  no_newline tail = true ->
  loop debug streamOutput
    {| data := data reader ++ tail; final := final reader |} v =
  loop debug streamOutput reader v.
Proof.
  intros Hc Ht. revert Hc.
  funelim (loop debug streamOutput reader v); intros Hc;
    clear Heqcall;
    rewrite loop_step; unfold ReadBytes in *; simpl;
    destruct (cut_at "010" (data reader)) as [[l r]|] eqn:E; try discriminate.
  - match goal with H : ReadLine _ _ = ReadLine _ _ |- _ =>
      injection H as <- <- end.
    rewrite (cut_at_append _ _ tail _ _ E).
    destruct (loop_body debug streamOutput l v) as [v'| |]; try reflexivity.
    match goal with
    | IH : forall v', _ |- _ =>
        apply (IH v' debug streamOutput tail
                 {| data := r; final := final reader |} v' Ht eq_refl eq_refl)
    end.
    simpl. eapply cut_at_complete_rest; eauto.
  - match goal with H : ReadFail _ _ = ReadFail _ _ |- _ =>
      injection H as _ <- end.
    rewrite (cut_at_complete_none _ Hc E). simpl.
    now rewrite (cut_at_no_newline _ Ht).
Qed.

Lemma well_formed_is_line {X : Externals} lines :
  Forall well_formed lines -> Forall (fun l => is_line l = true) lines.
Proof. apply Forall_impl. now intros l [Hl _]. Qed.

Lemma passed_is_line {X : Externals} lines :
  Forall passed lines -> Forall (fun l => is_line l = true) lines.
Proof. apply Forall_impl. now intros l [Hl _]. Qed.

Lemma run_lines_skipped {X : Externals} debug streamOutput lines v :
  Forall (fun l => is_line l = true /\ skippable l = true) lines ->
  run_lines debug streamOutput lines v = Continue v.
Proof.
  induction 1 as [|l ls [_ Hl] _ IH]; [reflexivity|].
  rewrite run_lines_cons. unfold classify. now rewrite Hl.
Qed.

(** What [processStreamResponse] returns once the loop ended by [break]. *)
Lemma decode_broke {X : Externals} body debug streamOutput v :
  loop debug streamOutput body initial_vars = Broke v ->
  Decode body debug streamOutput =
  if String.eqb (fullResponse v) ""
  then ("", "", Some (errors_New msg_empty_reply))
  else (fullResponse v, requestID v, None).
Proof.
  intros H. unfold Decode, processStreamResponse. rewrite H.
  now destruct (fullResponse v).
Qed.

(** ** The functions on concrete inputs *)

(** The end-to-end example: two fragments and the terminator. *)
Example decode_hello :
  processStreamResponse (X := Demo.online)
    {| data := Demo.hello_stream; final := io_EOF |} false true =
  (("Hello", "r1", None), [OutContent "Hel"; OutContent "lo"]).
Proof. reflexivity. Qed.

Example decode_first_id_wins :
  Decode (X := Demo.online)
    {| data := Demo.event "" "Hi" "" ++ Demo.event "r2" "!" ""
               ++ Demo.event "r1" "lo" "" ++ done_line;
       final := io_EOF |} false false =
  ("Hi!lo", "r2", None).
Proof. reflexivity. Qed.

Example decode_broken_connection :
  Decode (X := Demo.online)
    {| data := Demo.event "r1" "Hel" ""; final := errors_New "reset by peer" |}
    false false =
  ("", "", Some (Errorf_w msg_read_stream (errors_New "reset by peer"))).
Proof. reflexivity. Qed.

Example decode_end_of_stream :
  Decode (X := Demo.online)
    {| data := Demo.event "r1" "Hel" ""; final := io_EOF |} false false =
  ("Hel", "r1", None).
Proof. reflexivity. Qed.

Example split_model_command :
  strings_Split "/model qwen-max" " "%char = ["/model"; "qwen-max"] /\
  strings_Split "/model" " "%char = ["/model"] /\
  strings_Split "/model  qwen-max" " "%char = ["/model"; ""; "qwen-max"] /\
  strings_Split "" " "%char = [""].
Proof. repeat split. Qed.

Example read_two_lines :
  ReadBytes {| data := "ab" ++ nl ++ "cd"; final := io_EOF |} "010" =
    ReadLine ("ab" ++ nl) {| data := "cd"; final := io_EOF |} /\
  ReadBytes {| data := "cd"; final := io_EOF |} "010" = ReadFail "cd" io_EOF.
Proof. split; reflexivity. Qed.

Example interactive_turn :
  session_iteration (X := Demo.online) (RlLine "  hi ")
    (initial_state (X := Demo.online)) =
  IterContinue
    {| Model := "qwen-plus";
       History := [system_preamble; user_message "hi";
                   assistant_message "Hello"];
       CmdHistory := ["hi"];
       Debug := false;
       LastRequestID := "r1";
       isSingleCmd := false |}
    [OutAIPrefix "qwen-plus"; OutContent "Hel"; OutContent "lo"; OutNewline].
Proof. reflexivity. Qed.

(** Concrete lines: each is checked by evaluation. *)
Ltac lines_by_evaluation tac :=
  repeat (apply Forall_cons; [split; [reflexivity | tac] | ]);
  apply Forall_nil.

(** ** The decoder on streams that end in the terminator *)

(** C1, as amended: for every well-formed event stream that ends in the
    [DONE] terminator, the decode returns the concatenation, in arrival
    order, of the [delta.content] of the first choice of every parsed record
    (the records up to the first one that stops) together with the first
    non-empty [id] of those records, provided that concatenation is not
    empty; when it is empty the decode fails with the empty-reply error. *)
Theorem decode_done_terminated {X : Externals} lines e debug streamOutput :
  Forall well_formed lines ->
  Decode {| data := join lines ++ done_line; final := e |} debug streamOutput =
  let parsed := up_to_stop (events lines) in
  let text := join (map first_content parsed) in
  if String.eqb text "" then ("", "", Some (errors_New msg_empty_reply))
  else (text, first_id parsed, None).
Proof.
  intros Hwf.
  destruct (run_lines_well_formed debug streamOutput lines initial_vars Hwf)
    as [out Hrun].
  assert (Hloop : loop debug streamOutput
                    {| data := join lines ++ done_line; final := e |}
                    initial_vars =
                  Broke {| fullResponse :=
                             join (map first_content (up_to_stop (events lines)));
                           requestID := first_id (up_to_stop (events lines));
                           printed := out |}).
  { rewrite (loop_lines _ _ _ _ _ _ (well_formed_is_line _ Hwf)), Hrun.
    simpl. destruct (existsb stops (events lines)); [reflexivity|].
    rewrite <- (append_nil_r done_line) at 1.
    now rewrite loop_line, loop_body_done. }
  now rewrite (decode_broke _ _ _ _ Hloop).
Qed.

Lemma decode_done_terminated_witness :
  let lines := [Demo.event "r1" "Hel" ""; Demo.event "r1" "lo" ""] in
  Forall (well_formed (X := Demo.online)) lines /\
  Decode (X := Demo.online)
    {| data := join lines ++ done_line; final := io_EOF |} false true =
  ("Hello", "r1", None).
Proof.
  assert (Hwf : Forall (well_formed (X := Demo.online))
                  [Demo.event "r1" "Hel" ""; Demo.event "r1" "lo" ""]).
  { lines_by_evaluation ltac:(right; eexists; reflexivity). }
  split; [exact Hwf|].
  exact (decode_done_terminated (X := Demo.online) _ io_EOF false true Hwf).
Defined.

(** C1 as stated fails on a well-formed stream whose records carry no
    text: the decode is an error, not the empty text with the id. *)
Lemma decode_done_terminated_empty_text :
  let lines := [Demo.event "r1" "" ""] in
  let parsed := up_to_stop (events (X := Demo.online) lines) in
  Forall (well_formed (X := Demo.online)) lines /\
  Decode (X := Demo.online)
    {| data := join lines ++ done_line; final := io_EOF |} false false <>
  (join (map first_content parsed), first_id parsed, None).
Proof.
  split.
  - lines_by_evaluation ltac:(right; eexists; reflexivity).
  - vm_compute. discriminate.
Qed.

(** ** Malformed records *)

(** C2, as amended: when the decoder reaches a data-prefixed line whose
    payload fails to parse (every line before it is passed: none is the
    terminator, stops the stream or is malformed itself), the whole decode
    fails with the parse error and returns no text and no id, whatever was
    accumulated before and whatever follows. *)
Theorem decode_malformed_fails {X : Externals}
  pre bad err rest e debug streamOutput :
  Forall passed pre ->
  is_line bad = true ->
  classify bad = Malformed err ->
  Decode {| data := join pre ++ bad ++ rest; final := e |} debug streamOutput =
  ("", "", Some (Errorf_w msg_parse_json err)).
Proof.
  intros Hpre Hbad Hcls. unfold Decode, processStreamResponse.
  rewrite (loop_lines _ _ _ _ _ _ (passed_is_line _ Hpre)).
  destruct (run_lines_passed debug streamOutput pre initial_vars Hpre)
    as [v' ->].
  now rewrite (loop_line _ _ _ _ _ _ Hbad), loop_body_classify, Hcls.
Qed.

Lemma decode_malformed_fails_witness :
  let pre := [Demo.event "r1" "Hel" ""; Demo.event "r1" "lo" ""] in
  let bad := ("data: {oops" ++ nl)%string in
  Forall (passed (X := Demo.online)) pre /\
  is_line bad = true /\
  classify (X := Demo.online) bad = Malformed (errors_New "invalid character") /\
  Decode (X := Demo.online)
    {| data := join pre ++ bad ++ done_line; final := io_EOF |} false false =
  ("", "", Some (Errorf_w msg_parse_json (errors_New "invalid character"))).
Proof.
  assert (Hpre : Forall (passed (X := Demo.online))
                   [Demo.event "r1" "Hel" ""; Demo.event "r1" "lo" ""]).
  { lines_by_evaluation ltac:(right; eexists; split; reflexivity). }
  split; [exact Hpre|]. split; [reflexivity|]. split; [reflexivity|].
  exact (decode_malformed_fails (X := Demo.online) _ ("data: {oops" ++ nl)%string
           _ done_line io_EOF false false Hpre eq_refl eq_refl).
Defined.

(** C2 as stated fails on a stream whose malformed record comes after the
    terminator: the loop has ended before it, and the decode succeeds. *)
Lemma malformed_after_terminator_not_read :
  let bad := ("data: {oops" ++ nl)%string in
  is_line bad = true /\
  String.prefix data_prefix bad = true /\
  json_Unmarshal (Externals := Demo.online) (slice_from 6 bad) =
    inr (errors_New "invalid character") /\
  Decode (X := Demo.online)
    {| data := Demo.hello_stream ++ bad; final := io_EOF |} false false =
  ("Hello", "r1", None).
Proof. repeat split. Qed.

(** ** Empty replies *)

(** C3: on every stream on which the loop ends by [break] (terminator,
    "stop" or end of stream) with nothing accumulated, and so on every
    stream that holds only skipped lines (no "data: " prefix, blank, shorter
    than the prefix, or unterminated at the end) before a clean end of
    stream, the decode fails with the empty-reply error. *)
Theorem decode_empty_reply {X : Externals} body debug streamOutput :
  (exists v, loop debug streamOutput body initial_vars = Broke v /\
             fullResponse v = "") \/
  (exists lines tail,
     data body = (join lines ++ tail)%string /\
     Forall (fun l => is_line l = true /\ skippable l = true) lines /\
     no_newline tail = true /\
     errors_Is_EOF (final body) = true) ->
  Decode body debug streamOutput = ("", "", Some (errors_New msg_empty_reply)).
Proof.
  intros [[v [Hloop Hv]]|[lines [tail [Hdata [Hskip [Htail Hfinal]]]]]].
  - now rewrite (decode_broke _ _ _ _ Hloop), Hv.
  - apply (decode_broke _ _ _ initial_vars).
    destruct body as [bytes fin]. simpl in *. subst bytes.
    rewrite loop_lines by (revert Hskip; apply Forall_impl; tauto).
    now rewrite (run_lines_skipped _ _ _ _ Hskip), (loop_end _ _ _ _ _ Htail),
      Hfinal.
Qed.

Lemma decode_empty_reply_witness :
  let lines := [(": keep-alive" ++ nl)%string; nl; ("data:" ++ nl)%string] in
  let body := {| data := join lines ++ "dat"; final := io_EOF |} in
  (exists tail,
     data body = (join lines ++ tail)%string /\
     Forall (fun l => is_line l = true /\ skippable l = true) lines /\
     no_newline tail = true /\
     errors_Is_EOF (final body) = true) /\
  Decode (X := Demo.online) body false true =
  ("", "", Some (errors_New msg_empty_reply)).
Proof.
  assert (H : exists tail,
     (join [(": keep-alive" ++ nl)%string; nl; ("data:" ++ nl)%string] ++ "dat")%string
       = (join [(": keep-alive" ++ nl)%string; nl; ("data:" ++ nl)%string]
            ++ tail)%string /\
     Forall (fun l => is_line l = true /\ skippable l = true)
       [(": keep-alive" ++ nl)%string; nl; ("data:" ++ nl)%string] /\
     no_newline tail = true /\
     errors_Is_EOF io_EOF = true).
  { exists "dat". split; [reflexivity|]. split; [|split; reflexivity].
    lines_by_evaluation reflexivity. }
  split; [exact H|].
  apply (decode_empty_reply (X := Demo.online)). right.
  eexists. exact H.
Defined.

(** ** Ending by "stop" and ending by the terminator *)

(** C4, as amended: after the same lines, a stream that ends by a record
    whose first choice has [finish_reason] "stop" decodes to the same result
    as one that ends by the terminator line, provided the stopping record
    brings nothing of its own: its first choice has no text, and its [id] is
    empty or an earlier record already had one. *)
Theorem stop_matches_done {X : Externals}
  pre stop_line chunk rest1 rest2 e1 e2 debug streamOutput :
  Forall (fun l => is_line l = true) pre ->
  is_line stop_line = true ->
  classify stop_line = Event chunk ->
  stops chunk = true ->
  first_content chunk = "" ->
  ID chunk = "" \/ first_id (events pre) <> "" ->
  Decode {| data := join pre ++ stop_line ++ rest1; final := e1 |}
    debug streamOutput =
  Decode {| data := join pre ++ done_line ++ rest2; final := e2 |}
    debug streamOutput.
Proof.
  intros Hpre Hline Hcls Hstop Htext Hid. unfold Decode, processStreamResponse.
  rewrite !(loop_lines _ _ _ _ _ _ Hpre).
  destruct (run_lines debug streamOutput pre initial_vars) as [v'| |] eqn:Hrun;
    try reflexivity.
  rewrite (loop_line _ _ _ _ _ _ Hline), loop_body_classify, Hcls, Hstop.
  rewrite loop_line, loop_body_done by reflexivity.
  apply run_lines_continue_id in Hrun. simpl in Hrun.
  unfold absorb. simpl. rewrite Htext, append_nil_r.
  assert (Hsame : (if String.eqb (requestID v') "" then ID chunk
                   else requestID v') = requestID v').
  { destruct (String.eqb_spec (requestID v') "") as [Hr|Hr]; [|reflexivity].
    destruct Hid as [Hid|Hid]; congruence. }
  rewrite Hsame.
  now destruct (Nat.eqb (String.length (fullResponse v')) 0).
Qed.

Lemma stop_matches_done_witness :
  let pre := [Demo.event "r1" "Hel" ""; Demo.event "r1" "lo" ""] in
  let stop_line := Demo.event "r1" "" "stop" in
  Forall (fun l => is_line l = true) pre /\
  classify (X := Demo.online) stop_line = Event (Demo.chunk "r1" "" "stop") /\
  first_id (events (X := Demo.online) pre) <> "" /\
  Decode (X := Demo.online)
    {| data := join pre ++ stop_line ++ done_line; final := io_EOF |}
    false false =
  Decode (X := Demo.online)
    {| data := join pre ++ done_line ++ ""; final := io_EOF |} false false.
Proof.
  assert (Hpre : Forall (fun l => is_line l = true)
                   [Demo.event "r1" "Hel" ""; Demo.event "r1" "lo" ""]).
  { repeat (apply Forall_cons; [reflexivity|]). apply Forall_nil. }
  assert (Hid : first_id (events (X := Demo.online)
                   [Demo.event "r1" "Hel" ""; Demo.event "r1" "lo" ""]) <> "").
  { vm_compute. discriminate. }
  split; [exact Hpre|]. split; [reflexivity|]. split; [exact Hid|].
  exact (stop_matches_done (X := Demo.online) _ (Demo.event "r1" "" "stop")
           _ done_line "" io_EOF io_EOF false false
           Hpre eq_refl eq_refl eq_refl eq_refl (or_intror Hid)).
Defined.

(** C4 as stated fails when the stopping record carries text of its own:
    that text is appended before the loop ends. *)
Lemma stop_record_with_text_differs :
  let pre := [Demo.event "r1" "Hel" ""] in
  let stop_line := Demo.event "r1" "lo" "stop" in
  Forall (well_formed (X := Demo.online)) pre /\
  is_line stop_line = true /\
  classify (X := Demo.online) stop_line = Event (Demo.chunk "r1" "lo" "stop") /\
  stops (Demo.chunk "r1" "lo" "stop") = true /\
  Decode (X := Demo.online)
    {| data := join pre ++ stop_line; final := io_EOF |} false false =
    ("Hello", "r1", None) /\
  Decode (X := Demo.online)
    {| data := join pre ++ done_line; final := io_EOF |} false false =
    ("Hel", "r1", None).
Proof.
  split; [lines_by_evaluation ltac:(right; eexists; reflexivity)|].
  repeat split.
Qed.

(** ** Bytes after the last newline *)

(** C9: bytes after the last newline of a stream contribute nothing, even
    when they spell an event or the terminator: the decode returns, and
    prints, what it does on the stream cut at its last newline. *)
Theorem unterminated_tail_ignored {X : Externals}
  head tail e debug streamOutput :
  complete head = true ->
  no_newline tail = true ->
  processStreamResponse {| data := head ++ tail; final := e |}
    debug streamOutput =
  processStreamResponse {| data := head; final := e |} debug streamOutput.
Proof.
  intros Hhead Htail. unfold processStreamResponse.
  now rewrite (loop_ignores_tail debug streamOutput tail
                 {| data := head; final := e |} initial_vars Hhead Htail).
Qed.

Lemma unterminated_tail_ignored_witness :
  let head := Demo.event "r1" "Hel" "" in
  let tail := (data_prefix ++ Demo.chunk_json "r1" "lo" "")%string in
  complete head = true /\
  no_newline tail = true /\
  processStreamResponse (X := Demo.online)
    {| data := head ++ tail; final := io_EOF |} false true =
  processStreamResponse (X := Demo.online)
    {| data := head; final := io_EOF |} false true.
Proof.
  split; [reflexivity|]. split; [reflexivity|].
  exact (unterminated_tail_ignored (X := Demo.online)
           (Demo.event "r1" "Hel" "")
           (data_prefix ++ Demo.chunk_json "r1" "lo" "")%string
           io_EOF false true eq_refl eq_refl).
Defined.

(** ** Turns *)

Lemma run_turn_failed {X : Externals} state text streamOutput reply err state' out :
  run_turn state text streamOutput = ((reply, Some err), state', out) ->
  state' = set_History (History state ++ [user_message text]) state.
Proof.
  unfold run_turn, processAIResponse.
  destruct (streamChatCompletion _ streamOutput) as [[[aiReply id] [e|]] out1].
  - now intros [= _ _ <- _].
  - discriminate.
Qed.

Lemma run_turn_history {X : Externals} state text streamOutput :
  exists rest,
    History (snd (fst (run_turn state text streamOutput))) =
    History state ++ user_message text :: rest.
Proof.
  unfold run_turn, processAIResponse.
  destruct (streamChatCompletion _ streamOutput) as [[[aiReply id] [e|]] out1];
    simpl.
  - now exists [].
  - exists [assistant_message aiReply]. now rewrite <- app_assoc.
Qed.

(** The other path: a turn that succeeds appends the user message and the
    reply, and stores the id that the decode returned. *)
Lemma run_turn_succeeded {X : Externals} state text streamOutput reply state' out :
  run_turn state text streamOutput = ((reply, None), state', out) ->
  History state' =
    History state ++ [user_message text; assistant_message reply] /\
  fst (streamChatCompletion
         (set_History (History state ++ [user_message text]) state)
         streamOutput) = (reply, LastRequestID state', None).
Proof.
  unfold run_turn, processAIResponse.
  destruct (streamChatCompletion _ streamOutput) as [[[aiReply id] [e|]] out1];
    [discriminate|].
  intros [= <- <- _]. simpl. now rewrite <- app_assoc.
Qed.



(** C10: a turn that fails leaves the last correlation id, the model, the
    debug flag, the command log and the single-command flag as they were:
    the history is the only field it changes. *)
Theorem failed_turn_frame {X : Externals}
  state text streamOutput reply err state' out :
  run_turn state text streamOutput = ((reply, Some err), state', out) ->
  LastRequestID state' = LastRequestID state /\
  Model state' = Model state /\
  Debug state' = Debug state /\
  CmdHistory state' = CmdHistory state /\
  isSingleCmd state' = isSingleCmd state.
Proof.
  intros H. rewrite (run_turn_failed _ _ _ _ _ _ _ H). simpl. tauto.
Qed.

Lemma failed_turn_frame_witness :
  let state := {| Model := "qwen-max";
                  History := [system_preamble; user_message "a";
                              assistant_message "b"];
                  CmdHistory := ["/model qwen-max"; "a"];
                  Debug := true;
                  LastRequestID := "r0";
                  isSingleCmd := false |} in
  let result := run_turn (X := Demo.garbled) state "hi" true in
  snd (fst (fst result)) =
    Some (Errorf_w msg_parse_json (errors_New "invalid character")) /\
  LastRequestID (snd (fst result)) = "r0" /\
  Model (snd (fst result)) = "qwen-max" /\
  Debug (snd (fst result)) = true /\
  CmdHistory (snd (fst result)) = ["/model qwen-max"; "a"] /\
  isSingleCmd (snd (fst result)) = false.
Proof.
  split; [reflexivity|].
  refine (failed_turn_frame (X := Demo.garbled)
            {| Model := "qwen-max";
               History := [system_preamble; user_message "a";
                           assistant_message "b"];
               CmdHistory := ["/model qwen-max"; "a"];
               Debug := true;
               LastRequestID := "r0";
               isSingleCmd := false |} "hi" true
            "" (Errorf_w msg_parse_json (errors_New "invalid character"))
            _ _ eq_refl).
Defined.

(** ** Session commands *)

(** C6: whatever the history was, a reset leaves exactly one message, the
    system preamble, and an empty last correlation id; the command log (and
    the model and the debug flag) stay as they were. *)
Theorem reset_conversation state :
  let state' := fst (resetConversation state) in
  History state' = [system_preamble] /\
  List.length (History state') = 1 /\
  LastRequestID state' = "" /\
  CmdHistory state' = CmdHistory state /\
  Model state' = Model state /\
  Debug state' = Debug state /\
  handleCommand "/reset" state = Handle true state' [OutReset].
Proof. repeat split. Qed.

Lemma strings_Split_head head rest :
  no_space head = true ->
  strings_Split (head ++ " " ++ rest) " " = head :: strings_Split rest " ".
Proof.
  induction head as [|c head IH]; simpl in *; [reflexivity|].
  destruct (Ascii.eqb c " "); simpl; [discriminate|].
  intros H. now rewrite (IH H).
Qed.

Lemma strings_Split_single s :
  no_space s = true -> strings_Split s " " = [s].
Proof.
  induction s as [|c s IH]; simpl; [reflexivity|].
  destruct (Ascii.eqb c " "); simpl; [discriminate|].
  intros H. now rewrite (IH H).
Qed.

(** Every input has no blank, or is a word, a blank and a second word,
    with or without a blank and more text after it. *)
Lemma input_shapes input :
  no_space input = true \/
  exists head target,
    no_space head = true /\ no_space target = true /\
    (input = (head ++ " " ++ target)%string \/
     exists rest, input = (head ++ " " ++ target ++ " " ++ rest)%string).
Proof.
  induction input as [|c input IH]; [now left|].
  destruct (Ascii.eqb c " ") eqn:Hc.
  - apply Ascii.eqb_eq in Hc. subst c. right. exists "".
    destruct IH as [Hn|[head [target [Hh [Ht [->|[rest ->]]]]]]].
    + exists input. repeat split; auto.
    + exists head. repeat split; auto. right. now exists target.
    + exists head. repeat split; auto. right.
      now exists (target ++ " " ++ rest)%string.
  - destruct IH as [Hn|[head [target [Hh [Ht Hin]]]]].
    + left. simpl. now rewrite Hc, Hn.
    + right. exists (String c head), target. simpl. rewrite Hc, Hh.
      repeat split; auto.
      destruct Hin as [->|[rest ->]]; [now left | right; now exists rest].
Qed.

Lemma is_known_model_iff name :
  is_known_model name = true <->
  In name ["qwen-plus"; "qwen-max"; "qwen-turbo"; "deepseek-r1"; "deepseek-v3"].
Proof.
  unfold is_known_model, known_models. rewrite existsb_exists. split.
  - intros [m [Hin Heq]]. apply String.eqb_eq in Heq. now subst.
  - intros Hin. exists name. split; [exact Hin | apply String.eqb_refl].
Qed.

(** The switch on an input whose second blank-separated part is [target]. *)
Lemma handleModelSwitch_target input head target state :
  no_space head = true -> no_space target = true ->
  input = (head ++ " " ++ target)%string \/
    (exists rest, input = (head ++ " " ++ target ++ " " ++ rest)%string) ->
  handleModelSwitch input state =
  if is_known_model target
  then (set_Model target state, [OutSwitched target])
  else (state, [OutUnsupportedModel]).
Proof.
  intros Hh Ht Hin. unfold handleModelSwitch.
  assert (Hparts : exists more,
             strings_Split input " " = head :: target :: more).
  { destruct Hin as [->|[rest ->]]; rewrite (strings_Split_head head) by exact Hh.
    - rewrite (strings_Split_single target) by exact Ht. now exists [].
    - rewrite (strings_Split_head target) by exact Ht. now eexists. }
  destruct Hparts as [more ->]. simpl.
  now destruct (is_known_model target).
Qed.

(** C7: every model switch is decided by its target, the text between the
    first and the second blank of the input, compared with five fixed names
    and with nothing else. With a target on the list, the active model
    becomes the target; with any other target the active model stays as it
    was and only the error message is displayed; with no blank in the input
    there is no target, and the current model is displayed. No other field
    of the session changes in any case. *)
Theorem model_switch_allow_list input state :
  let state' := fst (handleModelSwitch input state) in
  let out := snd (handleModelSwitch input state) in
  same_but_model state state' /\
  (no_space input = true /\
   Model state' = Model state /\ out = [OutCurrentModel (Model state)]
   \/
   exists head target,
     no_space head = true /\ no_space target = true /\
     (input = (head ++ " " ++ target)%string \/
      exists rest, input = (head ++ " " ++ target ++ " " ++ rest)%string) /\
     (In target ["qwen-plus"; "qwen-max"; "qwen-turbo"; "deepseek-r1";
                 "deepseek-v3"] ->
      Model state' = target /\ out = [OutSwitched target]) /\
     (~ In target ["qwen-plus"; "qwen-max"; "qwen-turbo"; "deepseek-r1";
                   "deepseek-v3"] ->
      Model state' = Model state /\ out = [OutUnsupportedModel])).
Proof.
  cbv zeta.
  destruct (input_shapes input) as [Hn|[head [target [Hh [Ht Hin]]]]].
  - unfold handleModelSwitch. rewrite (strings_Split_single input Hn).
    change (Nat.ltb (List.length [input]) 2) with true. cbv iota.
    split; [unfold same_but_model; auto 6|].
    left. auto.
  - rewrite (handleModelSwitch_target input head target state Hh Ht Hin).
    pose proof (is_known_model_iff target) as Hknown.
    destruct (is_known_model target); cbn [fst snd].
    + split; [unfold same_but_model; cbn; auto 6|].
      right. exists head, target.
      split; [exact Hh|]. split; [exact Ht|]. split; [exact Hin|]. split.
      * intros _. split; reflexivity.
      * intros Hnot. exfalso. apply Hnot. now apply Hknown.
    + split; [unfold same_but_model; auto 6|].
      right. exists head, target.
      split; [exact Hh|]. split; [exact Ht|]. split; [exact Hin|]. split.
      * intros Hin'. apply Hknown in Hin'. discriminate.
      * intros _. split; reflexivity.
Qed.

(** ** The first message of the history *)

Lemma keeps_first_same_history state state' :
  starts_with_system state = true ->
  History state' = History state ->
  keeps_first state state'.
Proof.
  unfold keeps_first, starts_with_system. intros H E. now rewrite E.
Qed.

Lemma keeps_first_longer_history state state' more :
  starts_with_system state = true ->
  History state' = History state ++ more ->
  keeps_first state state'.
Proof.
  unfold keeps_first, starts_with_system. intros H E. rewrite E.
  destruct (History state); [discriminate|]. now split.
Qed.

Lemma keeps_first_weaken state state' :
  keeps_first state state' -> keeps_or_resets state state'.
Proof. intros [H1 H2]. split; [exact H1 | now left]. Qed.

Lemma keeps_or_resets_from state0 state state' :
  History state = History state0 ->
  keeps_or_resets state state' -> keeps_or_resets state0 state'.
Proof. unfold keeps_or_resets. intros E. now rewrite E. Qed.

Lemma run_turn_keeps_first {X : Externals} state text streamOutput :
  starts_with_system state = true ->
  keeps_first state (snd (fst (run_turn state text streamOutput))).
Proof.
  intros H. destruct (run_turn_history state text streamOutput) as [rest E].
  eapply keeps_first_longer_history; eauto.
Qed.

Lemma handleCommand_returns input state handled state' out :
  starts_with_system state = true ->
  handleCommand input state = Handle handled state' out ->
  keeps_or_resets state state' /\ (handled = false -> state' = state).
Proof.
  intros Hinv. unfold handleCommand.
  destruct (String.eqb input "exit" || String.eqb input "/quit");
    [discriminate|].
  destruct (String.eqb input "/reset").
  { intros [= <- <- _]. split; [|discriminate]. split; [reflexivity|now right]. }
  destruct (String.prefix "/model" input).
  { destruct (handleModelSwitch input state) as [s o] eqn:E.
    intros [= <- <- _]. split; [|discriminate].
    apply keeps_first_weaken, keeps_first_same_history; [exact Hinv|].
    unfold handleModelSwitch in E.
    destruct (Nat.ltb _ 2); [now injection E as <- _|].
    destruct (is_known_model _); now injection E as <- _. }
  destruct (String.eqb input "/debug").
  { intros [= <- <- _]. split; [|discriminate].
    now apply keeps_first_weaken, keeps_first_same_history. }
  destruct (String.eqb input "/help").
  { intros [= <- <- _]. split; [|discriminate].
    now apply keeps_first_weaken, keeps_first_same_history. }
  destruct (String.eqb input "/history").
  { intros [= <- <- _]. split; [|discriminate].
    now apply keeps_first_weaken, keeps_first_same_history. }
  intros [= _ <- _]. split; [|reflexivity].
  now apply keeps_first_weaken, keeps_first_same_history.
Qed.

(** What a recorded input does to a session: a command, or a turn. *)
Lemma dispatch_keeps {X : Externals} state input streamOutput :
  starts_with_system state = true ->
  match handleCommand input
          (set_CmdHistory (CmdHistory state ++ [input]) state) with
  | Exited _ => True
  | Handle true state' _ => keeps_or_resets state state'
  | Handle false state' _ =>
      keeps_or_resets state (snd (fst (run_turn state' input streamOutput)))
  end.
Proof.
  intros Hinv.
  destruct (handleCommand input _) as [code|handled state' out] eqn:E;
    [exact I|].
  apply handleCommand_returns in E; [|exact Hinv]. destruct E as [Hk Hsame].
  destruct handled.
  - eapply keeps_or_resets_from; [|exact Hk]. reflexivity.
  - rewrite (Hsame eq_refl).
    apply keeps_first_weaken.
    destruct (run_turn_keeps_first
                (set_CmdHistory (CmdHistory state ++ [input]) state)
                input streamOutput Hinv) as [H1 H2].
    split; assumption.
Qed.

(** C8: the state [main] starts from has a system message first, and every
    session operation keeps the history non-empty with a system message
    first: a reset puts the history back to the preamble alone; a model
    switch, a debug toggle, the recording of a command and a turn, failed
    or not, leave the first message where it is; so do the commands, the
    pass of the interactive loop and the single command built from them. *)
Theorem system_message_invariant {X : Externals} state :
  starts_with_system state = true ->
  starts_with_system initial_state = true /\
  (starts_with_system (fst (resetConversation state)) = true /\
   History (fst (resetConversation state)) = [system_preamble]) /\
  (forall input, keeps_first state (fst (handleModelSwitch input state))) /\
  keeps_first state (fst (toggleDebugMode state)) /\
  (forall cmd,
     keeps_first state (set_CmdHistory (CmdHistory state ++ [cmd]) state)) /\
  (forall text streamOutput,
     keeps_first state (snd (fst (run_turn state text streamOutput)))) /\
  (forall input,
     match handleCommand input state with
     | Exited _ => True
     | Handle _ state' _ => keeps_or_resets state state'
     end) /\
  (forall rl,
     match session_iteration rl state with
     | IterContinue state' _ | IterBreak state' => keeps_or_resets state state'
     | IterExit _ => True
     end) /\
  (forall cmd,
     match executeSingleCommand state cmd with
     | ExecReturn _ state' _ => keeps_or_resets state state'
     | ExecExit _ => True
     end).
Proof.
  intros Hinv.
  assert (Hself : keeps_or_resets state state)
    by now apply keeps_first_weaken, keeps_first_same_history.
  split; [reflexivity|]. split; [split; reflexivity|].
  split.
  { intros input. apply keeps_first_same_history; [exact Hinv|].
    unfold handleModelSwitch. destruct (Nat.ltb _ 2); [reflexivity|].
    now destruct (is_known_model _). }
  split; [now apply keeps_first_same_history|].
  split; [intros cmd; now apply keeps_first_same_history|].
  split; [intros text streamOutput; now apply run_turn_keeps_first|].
  split.
  { intros input.
    destruct (handleCommand input state) as [|handled state' out] eqn:E;
      [exact I|].
    now apply handleCommand_returns in E. }
  split.
  - intros [input|input| |err]; simpl.
    + destruct (String.eqb (strings_TrimSpace input) ""); [exact Hself|].
      pose proof (dispatch_keeps state (strings_TrimSpace input) true Hinv) as H.
      destruct (handleCommand _ _) as [|[|] state' out]; [exact I|exact H|].
      destruct (run_turn state' _ true) as [[[reply err] state''] out'].
      exact H.
    + destruct (Nat.eqb _ 0); exact Hself.
    + exact Hself.
    + exact Hself.
  - intros cmd. unfold executeSingleCommand.
    destruct (String.eqb (strings_TrimSpace cmd) ""); [exact Hself|].
    pose proof (dispatch_keeps state (strings_TrimSpace cmd) enableStream Hinv)
      as H.
    destruct (handleCommand _ _) as [|[|] state' out]; [exact I|exact H|].
    destruct (run_turn state' _ enableStream) as [[[reply err] state''] out'].
    exact H.
Qed.

Lemma system_message_invariant_witness :
  let state := {| Model := "qwen-plus";
                  History := [system_preamble; user_message "a";
                              assistant_message "b"];
                  CmdHistory := ["a"];
                  Debug := false;
                  LastRequestID := "r0";
                  isSingleCmd := false |} in
  starts_with_system state = true /\
  keeps_first state
    (snd (fst (run_turn (X := Demo.online) state "hi" true))) /\
  match session_iteration (X := Demo.online) (RlLine "/reset") state with
  | IterContinue state' _ | IterBreak state' => keeps_or_resets state state'
  | IterExit _ => True
  end.
Proof.
  intros state.
  assert (Hinv : starts_with_system state = true) by reflexivity.
  split; [exact Hinv|].
  pose proof (system_message_invariant (X := Demo.online) state Hinv) as H.
  split.
  - exact (proj1 (proj2 (proj2 (proj2 (proj2 (proj2 H))))) "hi" true).
  - exact (proj1 (proj2 (proj2 (proj2 (proj2 (proj2 (proj2 (proj2 H)))))))
             (RlLine "/reset")).
Defined.

(** * Further properties of the program *)

(** ** The decoder, line by line *)

Lemma lines_of_spec s :
  s = (join (fst (lines_of s)) ++ snd (lines_of s))%string /\
  Forall (fun l => is_line l = true) (fst (lines_of s)) /\
  no_newline (snd (lines_of s)) = true.
Proof.
  induction s as [|c s IH]; simpl; [repeat split; constructor|].
  destruct (lines_of s) as [lines tail]. simpl in IH.
  destruct IH as [Hs [Hlines Htail]].
  destruct (Ascii.eqb c "010") eqn:Hc; simpl.
  - repeat split; [now rewrite <- Hs | | exact Htail].
    constructor; [simpl; now rewrite Hc | exact Hlines].
  - destruct lines as [|l lines]; simpl in *.
    + repeat split; [now rewrite <- Hs | constructor | now rewrite Hc].
    + repeat split; [now rewrite <- Hs | | exact Htail].
      inversion Hlines; subst. constructor; [simpl; now rewrite Hc | assumption].
Qed.

Section ByLines.
Context {X : Externals}.

(** The loop on any reader, by the lines of its stream. *)
Lemma loop_by_lines debug streamOutput reader v :
  loop debug streamOutput reader v =
  match run_lines debug streamOutput (fst (lines_of (data reader))) v with
  | Continue v' =>
      if errors_Is_EOF (final reader) then Broke v'
      else Returned (Errorf_w msg_read_stream (final reader)) (printed v')
  | Break v' => Broke v'
  | Return err out => Returned err out
  end.
Proof.
  destruct reader as [s e]. simpl.
  destruct (lines_of_spec s) as [Hs [Hlines Htail]].
  rewrite Hs at 1. rewrite (loop_lines _ _ _ _ _ _ Hlines).
  destruct (run_lines _ _ _ v); try reflexivity.
  now rewrite (loop_end _ _ _ _ _ Htail).
Qed.

Lemma absorb_mute debug streamOutput chunk v :
  mute (absorb debug streamOutput chunk v) = absorb false false chunk (mute v).
Proof.
  unfold mute, absorb, print_if. simpl.
  now destruct (String.eqb (first_content chunk) "").
Qed.

Lemma run_lines_mute debug streamOutput lines v :
  mute_control (run_lines debug streamOutput lines v) =
  run_lines false false lines (mute v).
Proof.
  revert v. induction lines as [|l ls IH]; intros v; [reflexivity|].
  rewrite !run_lines_cons.
  destruct (classify l) as [| |chunk|err]; try reflexivity; [apply IH|].
  rewrite <- (absorb_mute debug streamOutput).
  destruct (stops chunk); [reflexivity | apply IH].
Qed.

Lemma Decode_mute debug streamOutput body :
  Decode body debug streamOutput = Decode body false false.
Proof.
  unfold Decode, processStreamResponse. rewrite !loop_by_lines.
  change initial_vars with (mute initial_vars) at 2.
  rewrite <- (run_lines_mute debug streamOutput).
  destruct (run_lines debug streamOutput _ initial_vars) as [v|v|err out];
    simpl; try destruct (errors_Is_EOF (final body)); simpl;
    try reflexivity; now destruct (fullResponse v).
Qed.

End ByLines.

(** X1: the debug flag and the streaming flag decide what is printed and
    nothing else: on every stream the decode returns the same text, id and
    error whatever the two flags are, and with both flags off it prints
    nothing. *)
Theorem decode_flags_irrelevant {X : Externals} body debug1 stream1 debug2 stream2 :
  Decode body debug1 stream1 = Decode body debug2 stream2 /\
  snd (processStreamResponse body false false) = [].
Proof.
  split.
  - now rewrite (Decode_mute debug1 stream1), (Decode_mute debug2 stream2).
  - unfold processStreamResponse. rewrite loop_by_lines.
    pose proof (run_lines_mute false false (fst (lines_of (data body)))
                  initial_vars) as H.
    change (mute initial_vars) with initial_vars in H.
    destruct (run_lines false false _ initial_vars) as [v|v|err out];
      simpl in H; injection H as H.
    + assert (Hv : printed v = []) by (rewrite <- H; reflexivity).
      destruct (errors_Is_EOF (final body)); [|exact Hv].
      now destruct (Nat.eqb (String.length (fullResponse v)) 0).
    + assert (Hv : printed v = []) by (rewrite <- H; reflexivity).
      now destruct (Nat.eqb (String.length (fullResponse v)) 0).
    + now subst out.
Qed.

(** ** What the decoder prints *)

Lemma contents_app out1 out2 :
  contents (out1 ++ out2) = contents out1 ++ contents out2.
Proof.
  induction out1 as [|o out1 IH]; [reflexivity|].
  destruct o; simpl; now rewrite IH.
Qed.

Lemma replies_app out1 out2 :
  replies (out1 ++ out2) = replies out1 ++ replies out2.
Proof.
  induction out1 as [|o out1 IH]; [reflexivity|].
  destruct o; simpl; now rewrite IH.
Qed.

Lemma absorb_printed {X : Externals} debug streamOutput chunk v :
  fragments_printed debug streamOutput (fullResponse v) (printed v) ->
  fragments_printed debug streamOutput
    (fullResponse (absorb debug streamOutput chunk v))
    (printed (absorb debug streamOutput chunk v)).
Proof.
  unfold fragments_printed. intros [H1 [H2 [H3 [H4 H5]]]].
  unfold absorb. cbn [fullResponse printed].
  set (base := print_if debug (OutDebugChunk chunk) (printed v)).
  assert (Hc : contents base = contents (printed v)).
  { unfold base, print_if. destruct debug; [|reflexivity].
    rewrite contents_app. simpl. apply app_nil_r. }
  assert (Hr : replies base = replies (printed v)).
  { unfold base, print_if. destruct debug; [|reflexivity].
    rewrite replies_app. simpl. apply app_nil_r. }
  assert (Hb : if debug then True else base = printed v).
  { unfold base, print_if. now destruct debug. }
  destruct (String.eqb_spec (first_content chunk) "") as [He|Hne].
  - rewrite He, append_nil_r, Hc, Hr.
    repeat split; auto. destruct debug; [exact I|]. now rewrite Hb.
  - unfold print_if. destruct streamOutput.
    + rewrite contents_app, replies_app, Hc, Hr, join_app, H1, H3. simpl.
      rewrite append_nil_r. repeat split; auto.
      * destruct debug; [exact I|].
        now rewrite map_app, <- H4, Hb.
      * apply Forall_app. split; [exact H5 | now repeat constructor].
    + rewrite Hc, Hr. repeat split; auto.
      destruct debug; [exact I|]. now rewrite Hb.
Qed.

Lemma run_lines_printed {X : Externals} debug streamOutput lines v :
  fragments_printed debug streamOutput (fullResponse v) (printed v) ->
  match run_lines debug streamOutput lines v with
  | Continue v' | Break v' =>
      fragments_printed debug streamOutput (fullResponse v') (printed v')
  | Return _ _ => True
  end.
Proof.
  revert v. induction lines as [|l ls IH]; intros v Hv; [exact Hv|].
  rewrite run_lines_cons.
  destruct (classify l) as [| |chunk|err]; [now apply IH | exact Hv | | exact I].
  pose proof (absorb_printed debug streamOutput chunk v Hv) as Hv'.
  destruct (stops chunk); [exact Hv' | now apply IH].
Qed.

Lemma loop_printed {X : Externals} debug streamOutput body :
  match loop debug streamOutput body initial_vars with
  | Broke v =>
      fragments_printed debug streamOutput (fullResponse v) (printed v)
  | Returned _ _ => True
  end.
Proof.
  rewrite loop_by_lines.
  assert (H0 : fragments_printed debug streamOutput
                 (fullResponse initial_vars) (printed initial_vars)).
  { unfold fragments_printed. simpl.
    destruct streamOutput, debug; repeat split; auto. }
  pose proof (run_lines_printed debug streamOutput
                (fst (lines_of (data body))) initial_vars H0) as H.
  destruct (run_lines _ _ _ initial_vars) as [v'|v'|err o]; [|exact H|exact I].
  now destruct (errors_Is_EOF (final body)).
Qed.

(** X2: of the two places that write reply text as such, a successful
    decode uses [fmt.Print(content)] only. With streaming on, the fragments
    it writes there are not empty and, put together in order, are the text
    it returns; with streaming off it writes none. It never writes a whole
    reply, and with debugging off it writes nothing but these fragments.
    (With debugging on it also dumps every record, text included; those
    dumps are not counted here.) *)
Theorem streamed_text_is_reply {X : Externals}
  body debug streamOutput text id out :
  processStreamResponse body debug streamOutput = ((text, id, None), out) ->
  join (contents out) = (if streamOutput then text else "") /\
  (if streamOutput then True else contents out = []) /\
  replies out = [] /\
  (if debug then True else out = map OutContent (contents out)) /\
  Forall (fun content => content <> "") (contents out).
Proof.
  unfold processStreamResponse.
  pose proof (loop_printed debug streamOutput body) as H.
  destruct (loop debug streamOutput body initial_vars) as [v|err o];
    [|discriminate].
  destruct (Nat.eqb (String.length (fullResponse v)) 0); [discriminate|].
  intros [= <- _ <-]. exact H.
Qed.

Lemma streamed_text_is_reply_witness :
  let body := {| data := Demo.hello_stream; final := io_EOF |} in
  processStreamResponse (X := Demo.online) body false true =
    (("Hello", "r1", None), [OutContent "Hel"; OutContent "lo"]) /\
  join (contents [OutContent "Hel"; OutContent "lo"]) = "Hello" /\
  [OutContent "Hel"; OutContent "lo"] =
    map OutContent (contents [OutContent "Hel"; OutContent "lo"]).
Proof.
  pose proof (streamed_text_is_reply (X := Demo.online)
                {| data := Demo.hello_stream; final := io_EOF |} false true
                "Hello" "r1" [OutContent "Hel"; OutContent "lo"] eq_refl) as H.
  split; [reflexivity|].
  split; [exact (proj1 H) | exact (proj1 (proj2 (proj2 (proj2 H))))].
Defined.

(** ** How a stream ends *)

(** X3: a stream that is cut off cleanly, with or without bytes after its
    last newline, is decoded like the same lines followed by the terminator:
    the missing [DONE] is no error, and result and output are the same. *)
Theorem end_of_stream_like_terminator {X : Externals}
  lines tail rest e e' debug streamOutput :
  Forall (fun l => is_line l = true) lines ->
  no_newline tail = true ->
  errors_Is_EOF e = true ->
  processStreamResponse {| data := join lines ++ tail; final := e |}
    debug streamOutput =
  processStreamResponse {| data := join lines ++ done_line ++ rest; final := e' |}
    debug streamOutput.
Proof.
  intros Hlines Htail He. unfold processStreamResponse.
  rewrite !(loop_lines _ _ _ _ _ _ Hlines).
  destruct (run_lines debug streamOutput lines initial_vars) as [v| |];
    try reflexivity.
  rewrite (loop_end _ _ _ _ _ Htail), He.
  now rewrite loop_line, loop_body_done by reflexivity.
Qed.

Lemma end_of_stream_like_terminator_witness :
  let lines := [Demo.event "r1" "Hel" ""; Demo.event "r1" "lo" ""] in
  Forall (fun l => is_line l = true) lines /\
  processStreamResponse (X := Demo.online)
    {| data := join lines ++ "data: [DO"; final := io_EOF |} false true =
  processStreamResponse (X := Demo.online)
    {| data := join lines ++ done_line ++ ""; final := io_EOF |} false true.
Proof.
  assert (Hlines : Forall (fun l => is_line l = true)
                     [Demo.event "r1" "Hel" ""; Demo.event "r1" "lo" ""]).
  { repeat (apply Forall_cons; [reflexivity|]). apply Forall_nil. }
  split; [exact Hlines|].
  exact (end_of_stream_like_terminator (X := Demo.online) _ "data: [DO" ""
           io_EOF io_EOF false true Hlines eq_refl eq_refl).
Defined.

(** X4: nothing after the line that ends the loop is looked at: after the
    terminator line, or after a record whose first choice stops, the rest
    of the stream and the way the connection ends change neither the result
    nor the output. *)
Theorem bytes_after_end_ignored {X : Externals}
  pre last rest1 rest2 e1 e2 debug streamOutput :
  Forall (fun l => is_line l = true) pre ->
  is_line last = true ->
  last = done_line \/
    (exists chunk, classify last = Event chunk /\ stops chunk = true) ->
  processStreamResponse {| data := join pre ++ last ++ rest1; final := e1 |}
    debug streamOutput =
  processStreamResponse {| data := join pre ++ last ++ rest2; final := e2 |}
    debug streamOutput.
Proof.
  intros Hpre Hlast Hend. unfold processStreamResponse.
  rewrite !(loop_lines _ _ _ _ _ _ Hpre).
  destruct (run_lines debug streamOutput pre initial_vars) as [v| |];
    try reflexivity.
  rewrite !(loop_line _ _ _ _ _ _ Hlast).
  destruct Hend as [->|[chunk [Hcls Hstop]]].
  - now rewrite loop_body_done.
  - now rewrite loop_body_classify, Hcls, Hstop.
Qed.

Lemma bytes_after_end_ignored_witness :
  let pre := [Demo.event "r1" "Hel" ""] in
  let last := Demo.event "r1" "lo" "stop" in
  Forall (fun l => is_line l = true) pre /\
  (exists chunk, classify (X := Demo.online) last = Event chunk /\
                 stops chunk = true) /\
  processStreamResponse (X := Demo.online)
    {| data := join pre ++ last ++ done_line; final := io_EOF |} false true =
  processStreamResponse (X := Demo.online)
    {| data := join pre ++ last ++ "data: {oops"; final := errors_New "reset" |}
    false true.
Proof.
  assert (Hpre : Forall (fun l => is_line l = true) [Demo.event "r1" "Hel" ""]).
  { repeat (apply Forall_cons; [reflexivity|]). apply Forall_nil. }
  assert (Hend : exists chunk,
             classify (X := Demo.online) (Demo.event "r1" "lo" "stop") =
               Event chunk /\ stops chunk = true).
  { eexists. split; reflexivity. }
  split; [exact Hpre|]. split; [exact Hend|].
  exact (bytes_after_end_ignored (X := Demo.online) _
           (Demo.event "r1" "lo" "stop") done_line "data: {oops"
           io_EOF (errors_New "reset") false true Hpre eq_refl
           (or_intror Hend)).
Defined.

(** X5: when the connection breaks (the reader ends with an error that is
    not [io.EOF]) before any line has ended the loop, the decode fails with
    the read error and returns nothing of what it had accumulated. *)
Theorem broken_stream_fails {X : Externals} pre tail e debug streamOutput :
  Forall passed pre ->
  no_newline tail = true ->
  errors_Is_EOF e = false ->
  Decode {| data := join pre ++ tail; final := e |} debug streamOutput =
  ("", "", Some (Errorf_w msg_read_stream e)).
Proof.
  intros Hpre Htail He. unfold Decode, processStreamResponse.
  rewrite (loop_lines _ _ _ _ _ _ (passed_is_line _ Hpre)).
  destruct (run_lines_passed debug streamOutput pre initial_vars Hpre)
    as [v' ->].
  now rewrite (loop_end _ _ _ _ _ Htail), He.
Qed.

Lemma broken_stream_fails_witness :
  let pre := [Demo.event "r1" "Hel" ""; Demo.event "r1" "lo" ""] in
  Forall (passed (X := Demo.online)) pre /\
  Decode (X := Demo.online)
    {| data := join pre ++ "data: "; final := errors_New "reset by peer" |}
    false false =
  ("", "", Some (Errorf_w msg_read_stream (errors_New "reset by peer"))).
Proof.
  assert (Hpre : Forall (passed (X := Demo.online))
                   [Demo.event "r1" "Hel" ""; Demo.event "r1" "lo" ""]).
  { lines_by_evaluation ltac:(right; eexists; split; reflexivity). }
  split; [exact Hpre|].
  exact (broken_stream_fails (X := Demo.online) _ "data: "
           (errors_New "reset by peer") false false Hpre eq_refl eq_refl).
Defined.

(** ** Lines that carry nothing, and choices that are not read *)

Lemma run_lines_filter {X : Externals} debug streamOutput lines v :
  run_lines debug streamOutput
    (filter (fun l => negb (skippable l)) lines) v =
  run_lines debug streamOutput lines v.
Proof.
  revert v. induction lines as [|l ls IH]; intros v; [reflexivity|].
  simpl filter. rewrite (run_lines_cons _ _ l ls).
  destruct (skippable l) eqn:Hl; simpl negb; cbv iota.
  - unfold classify. rewrite Hl. apply IH.
  - rewrite run_lines_cons.
    destruct (classify l) as [| |chunk|err]; try reflexivity; [apply IH|].
    destruct (stops chunk); [reflexivity | apply IH].
Qed.

(** X6: lines that the decoder skips (blank lines, comments, keep-alives,
    anything without the "data: " prefix) can be taken out of a stream, or
    put into it, anywhere: result and output stay the same. *)
Theorem skipped_lines_invisible {X : Externals}
  lines rest e debug streamOutput :
  Forall (fun l => is_line l = true) lines ->
  processStreamResponse {| data := join lines ++ rest; final := e |}
    debug streamOutput =
  processStreamResponse
    {| data := join (filter (fun l => negb (skippable l)) lines) ++ rest;
       final := e |} debug streamOutput.
Proof.
  intros Hlines. unfold processStreamResponse.
  assert (Hkept : Forall (fun l => is_line l = true)
                    (filter (fun l => negb (skippable l)) lines)).
  { apply Forall_forall. intros l Hl. apply filter_In in Hl.
    rewrite Forall_forall in Hlines. now apply Hlines. }
  now rewrite (loop_lines _ _ _ _ _ _ Hlines), (loop_lines _ _ _ _ _ _ Hkept),
    run_lines_filter.
Qed.

Lemma skipped_lines_invisible_witness :
  let lines := [(": ping" ++ nl)%string; Demo.event "r1" "Hel" ""; nl;
                Demo.event "r1" "lo" ""] in
  Forall (fun l => is_line l = true) lines /\
  processStreamResponse (X := Demo.online)
    {| data := join lines ++ done_line; final := io_EOF |} false true =
  processStreamResponse (X := Demo.online)
    {| data := Demo.hello_stream; final := io_EOF |} false true.
Proof.
  assert (Hlines : Forall (fun l => is_line l = true)
                     [(": ping" ++ nl)%string; Demo.event "r1" "Hel" ""; nl;
                      Demo.event "r1" "lo" ""]).
  { repeat (apply Forall_cons; [reflexivity|]). apply Forall_nil. }
  split; [exact Hlines|].
  exact (skipped_lines_invisible (X := Demo.online) _ done_line io_EOF
           false true Hlines).
Defined.

(** X7: of a record the decoder reads the id and the first choice only: two
    event lines whose records agree on these (they may differ in further
    choices, the model name or the usage counters) can stand for each other
    anywhere in a stream without changing the decode. *)
Theorem only_first_choice_consulted {X : Externals}
  pre l1 l2 chunk1 chunk2 rest e debug streamOutput :
  Forall (fun l => is_line l = true) pre ->
  is_line l1 = true -> is_line l2 = true ->
  classify l1 = Event chunk1 -> classify l2 = Event chunk2 ->
  ID chunk1 = ID chunk2 ->
  hd_error (Choices chunk1) = hd_error (Choices chunk2) ->
  Decode {| data := join pre ++ l1 ++ rest; final := e |} debug streamOutput =
  Decode {| data := join pre ++ l2 ++ rest; final := e |} debug streamOutput.
Proof.
  intros Hpre H1 H2 Hc1 Hc2 Hid Hhd.
  rewrite (Decode_mute debug streamOutput {| data := join pre ++ l1 ++ rest;
                                             final := e |}).
  rewrite (Decode_mute debug streamOutput {| data := join pre ++ l2 ++ rest;
                                             final := e |}).
  unfold Decode, processStreamResponse.
  rewrite !(loop_lines _ _ _ _ _ _ Hpre).
  destruct (run_lines false false pre initial_vars) as [v| |]; try reflexivity.
  rewrite (loop_line _ _ _ _ _ _ H1), (loop_line _ _ _ _ _ _ H2).
  rewrite !loop_body_classify, Hc1, Hc2.
  assert (Hstops : stops chunk1 = stops chunk2).
  { unfold stops. destruct (Choices chunk1), (Choices chunk2);
      try discriminate; [reflexivity | now injection Hhd as ->]. }
  assert (Habsorb : absorb false false chunk1 v = absorb false false chunk2 v).
  { unfold absorb, first_content. rewrite Hid.
    destruct (Choices chunk1), (Choices chunk2); try discriminate;
      [reflexivity | now injection Hhd as ->]. }
  now rewrite Hstops, Habsorb.
Qed.

Lemma only_first_choice_consulted_witness :
  let l1 := Demo2.two_choices_event in
  let l2 := Demo.event "r1" "Hel" "" in
  classify (X := Demo2.several) l1 = Event (Demo2.two_choices "r1" "Hel" "Bye") /\
  classify (X := Demo2.several) l2 = Event (Demo.chunk "r1" "Hel" "") /\
  Decode (X := Demo2.several)
    {| data := join [] ++ l1 ++ Demo.event "r1" "lo" "" ++ done_line;
       final := io_EOF |} false false =
  Decode (X := Demo2.several)
    {| data := join [] ++ l2 ++ Demo.event "r1" "lo" "" ++ done_line;
       final := io_EOF |} false false.
Proof.
  split; [reflexivity|]. split; [reflexivity|].
  exact (only_first_choice_consulted (X := Demo2.several) []
           Demo2.two_choices_event (Demo.event "r1" "Hel" "")
           (Demo2.two_choices "r1" "Hel" "Bye") (Demo.chunk "r1" "Hel" "")
           (Demo.event "r1" "lo" "" ++ done_line)%string io_EOF false false
           (Forall_nil _) eq_refl eq_refl eq_refl eq_refl eq_refl eq_refl).
Defined.

(** ** What a turn shows and stores *)

Lemma decode_success_nonempty {X : Externals} body debug streamOutput text id out :
  processStreamResponse body debug streamOutput = ((text, id, None), out) ->
  text <> "".
Proof.
  unfold processStreamResponse.
  destruct (loop debug streamOutput body initial_vars) as [v|err o];
    [|discriminate].
  destruct (fullResponse v) eqn:E; simpl; [discriminate|].
  intros [= <- _ _]. discriminate.
Qed.

(** A completion that succeeds went through the decoder: its text is not
    empty, and what it printed of it is what the decoder printed. *)
Lemma streamChatCompletion_success {X : Externals} state streamOutput text id out :
  streamChatCompletion state streamOutput = ((text, id, None), out) ->
  text <> "" /\ fragments_printed (Debug state) streamOutput text out.
Proof.
  unfold streamChatCompletion.
  destruct (json_Marshal _) as [jsonData|err]; [|discriminate].
  destruct (http_NewRequest _ _ _) as [req|err]; [|discriminate].
  destruct (Client_Do _) as [resp|err]; [|discriminate].
  destruct (negb (Z.eqb (StatusCode resp) http_StatusOK)); [discriminate|].
  destruct (processStreamResponse (Body resp) (Debug state) streamOutput)
    as [[[t i] e] out'] eqn:E.
  intros [= -> -> -> <-]. split.
  - eapply decode_success_nonempty; eauto.
  - assert (Hout : fragments_printed (Debug state) streamOutput text out').
    { unfold processStreamResponse in E.
      pose proof (loop_printed (Debug state) streamOutput (Body resp)) as H.
      destruct (loop (Debug state) streamOutput (Body resp) initial_vars)
        as [v|err o]; [|discriminate].
      destruct (Nat.eqb (String.length (fullResponse v)) 0); [discriminate|].
      injection E as <- _ <-. exact H. }
    unfold print_if. destruct (Debug state); [|exact Hout].
    unfold fragments_printed in *. simpl. tauto.
Qed.

(** X8: a successful turn writes its reply as reply text exactly once, and
    the flag decides where: with streaming on, [fmt.Print(content)] writes
    fragments that together are the reply and [fmt.Println(aiReply)] writes
    nothing; with streaming off, no fragment is written and the reply is
    printed whole, once. This holds in interactive and in single-command
    mode. With debugging off the output is just that, after the "AI(model):"
    prefix in interactive streaming mode. (With debugging on, the request,
    the records and the summary are dumped as well, and those dumps repeat
    the text; they are not counted here.) *)
Theorem reply_shown_once {X : Externals} state streamOutput reply state' out :
  processAIResponse state streamOutput = ((reply, None), state', out) ->
  join (contents out) = (if streamOutput then reply else "") /\
  (if streamOutput then True else contents out = []) /\
  replies out = (if streamOutput then [] else [reply]) /\
  (if Debug state then True
   else out =
        (if streamOutput && negb (isSingleCmd state)
         then [OutAIPrefix (Model state)] else [])
        ++ (if streamOutput then map OutContent (contents out)
            else [OutReply reply])).
Proof.
  unfold processAIResponse.
  destruct (streamChatCompletion state streamOutput)
    as [[[aiReply id] [e|]] out1] eqn:E; [discriminate|].
  apply streamChatCompletion_success in E.
  destruct E as [_ [H1 [H2 [H3 H4]]]]. destruct H4 as [H4 _].
  intros [= <- _ <-]. unfold print_if. cbn [isSingleCmd Debug set_History
                                             set_LastRequestID].
  destruct (Debug state), streamOutput, (isSingleCmd state);
    cbn [andb negb app contents replies];
    rewrite ?contents_app, ?replies_app, ?app_nil_r, ?H3;
    cbn [contents replies app]; rewrite ?app_nil_r, ?H2;
    repeat split; auto; try (rewrite <- H4; reflexivity);
    try (rewrite H4, H2; reflexivity).
Qed.

Lemma reply_shown_once_witness :
  let state := set_History [system_preamble; user_message "hi"]
                 (initial_state (X := Demo.online)) in
  fst (fst (processAIResponse (X := Demo.online) state false)) =
    ("Hello", None) /\
  (replies (snd (processAIResponse (X := Demo.online) state false)) =
     ["Hello"] /\
   contents (snd (processAIResponse (X := Demo.online) state false)) = []) /\
  fst (fst (processAIResponse (X := Demo.online) state true)) =
    ("Hello", None) /\
  (replies (snd (processAIResponse (X := Demo.online) state true)) = [] /\
   join (contents (snd (processAIResponse (X := Demo.online) state true))) =
     "Hello").
Proof.
  intros state.
  pose proof (reply_shown_once (X := Demo.online) state false "Hello" _ _
                eq_refl) as Hoff.
  pose proof (reply_shown_once (X := Demo.online) state true "Hello" _ _
                eq_refl) as Hon.
  split; [reflexivity|]. split.
  - split; [exact (proj1 (proj2 (proj2 Hoff))) | exact (proj1 (proj2 Hoff))].
  - split; [reflexivity|].
    split; [exact (proj1 (proj2 (proj2 Hon))) | exact (proj1 Hon)].
Defined.

(** X9: a turn that succeeds adds exactly two messages to the history, the
    user message and then the assistant message with the decoded text,
    which is never empty; it stores the id that came with that text and
    leaves the model, the debug flag and the command log as they were. *)
Theorem successful_turn {X : Externals} state text streamOutput reply state' out :
  run_turn state text streamOutput = ((reply, None), state', out) ->
  History state' =
    History state ++ [user_message text; assistant_message reply] /\
  reply <> "" /\
  fst (streamChatCompletion
         (set_History (History state ++ [user_message text]) state)
         streamOutput) = (reply, LastRequestID state', None) /\
  Model state' = Model state /\
  Debug state' = Debug state /\
  CmdHistory state' = CmdHistory state.
Proof.
  unfold run_turn, processAIResponse.
  destruct (streamChatCompletion _ streamOutput)
    as [[[aiReply id] [e|]] out1] eqn:E; [discriminate|].
  apply streamChatCompletion_success in E. destruct E as [Hne _].
  intros [= <- <- _]. simpl. rewrite <- app_assoc. now repeat split.
Qed.

Lemma successful_turn_witness :
  let state := initial_state (X := Demo.online) in
  let result := run_turn (X := Demo.online) state "hi" true in
  fst (fst result) = ("Hello", None) /\
  History (snd (fst result)) =
    [system_preamble; user_message "hi"; assistant_message "Hello"] /\
  LastRequestID (snd (fst result)) = "r1".
Proof.
  pose proof (successful_turn (X := Demo.online)
                (initial_state (X := Demo.online)) "hi" true "Hello" _ _ eq_refl)
    as H.
  split; [reflexivity|]. split; [exact (proj1 H) | reflexivity].
Defined.

(** X10: with debugging on, the last thing a successful turn prints is the
    debug summary, and it reports the state after the turn: the id just
    stored, the history length with the reply counted, and the reply as the
    last message (the history is never empty where its last entry is
    read). *)
Theorem debug_info_reports_reply {X : Externals}
  state streamOutput reply state' out :
  processAIResponse state streamOutput = ((reply, None), state', out) ->
  Debug state = true ->
  exists before,
    out = before ++ [OutDebugInfo (LastRequestID state')
                       (List.length (History state) + 1)
                       (assistant_message reply)].
Proof.
  unfold processAIResponse.
  destruct (streamChatCompletion state streamOutput)
    as [[[aiReply id] [e|]] out1]; [discriminate|].
  intros [= <- <- <-] Hdebug. simpl. rewrite Hdebug.
  unfold printDebugInfo. simpl. rewrite last_last, length_app. simpl.
  eexists. rewrite !app_assoc. reflexivity.
Qed.

Lemma debug_info_reports_reply_witness :
  let state := set_Debug true
                 (set_History [system_preamble; user_message "hi"]
                    (initial_state (X := Demo.online))) in
  Debug state = true /\
  exists before,
    snd (processAIResponse (X := Demo.online) state false) =
    before ++ [OutDebugInfo "r1" (2 + 1) (assistant_message "Hello")].
Proof.
  split; [reflexivity|].
  exact (debug_info_reports_reply (X := Demo.online)
           (set_Debug true
              (set_History [system_preamble; user_message "hi"]
                 (initial_state (X := Demo.online))))
           false "Hello" _ _ eq_refl eq_refl).
Defined.

(** ** Commands *)

Lemma is_known_model_In name :
  is_known_model name = true -> In name known_models.
Proof.
  unfold is_known_model. intros H. apply existsb_exists in H.
  destruct H as [m [Hin Heq]]. apply String.eqb_eq in Heq. now subst.
Qed.

(** What a command that returns may have changed. *)
Lemma handleCommand_frame input state handled state' out :
  handleCommand input state = Handle handled state' out ->
  CmdHistory state' = CmdHistory state /\
  isSingleCmd state' = isSingleCmd state /\
  (History state' = History state /\ LastRequestID state' = LastRequestID state
   \/ input = "/reset" /\ History state' = [system_preamble]
      /\ LastRequestID state' = "") /\
  (Model state' = Model state \/ In (Model state') known_models) /\
  (handled = false -> state' = state).
Proof.
  unfold handleCommand.
  destruct (String.eqb input "exit" || String.eqb input "/quit");
    [discriminate|].
  destruct (String.eqb_spec input "/reset") as [->|_].
  { intros [= <- <- _]. simpl. repeat split; try discriminate; auto. }
  destruct (String.prefix "/model" input).
  { unfold handleModelSwitch. destruct (Nat.ltb _ 2).
    - intros [= <- <- _]. repeat split; try discriminate; auto.
    - destruct (is_known_model _) eqn:Hk; intros [= <- <- _]; simpl;
        repeat split; try discriminate; auto.
      right. now apply is_known_model_In. }
  destruct (String.eqb input "/debug").
  { intros [= <- <- _]. simpl. repeat split; try discriminate; auto. }
  destruct (String.eqb input "/help").
  { intros [= <- <- _]. repeat split; try discriminate; auto. }
  destruct (String.eqb input "/history").
  { intros [= <- <- _]. repeat split; try discriminate; auto. }
  intros [= <- <- _]. repeat split; auto.
Qed.


(** X11: no built-in command that returns changes the command log, "/reset"
    included; and of these commands only "/reset" touches the conversation:
    after any other one the history and the last correlation id are as they
    were. *)
Theorem only_reset_changes_conversation input state handled state' out :
  handleCommand input state = Handle handled state' out ->
  CmdHistory state' = CmdHistory state /\
  (input <> "/reset" ->
   History state' = History state /\
   LastRequestID state' = LastRequestID state).
Proof.
  intros H. apply handleCommand_frame in H.
  destruct H as [Hlog [_ [Hconv _]]]. split; [exact Hlog|].
  intros Hinput. destruct Hconv as [[Hh Hid]|[Hreset _]];
    [auto | contradiction].
Qed.

Lemma only_reset_changes_conversation_witness :
  let state := {| Model := "qwen-plus";
                  History := [system_preamble; user_message "a";
                              assistant_message "b"];
                  CmdHistory := ["a"; "/reset"];
                  Debug := false;
                  LastRequestID := "r0";
                  isSingleCmd := false |} in
  (exists state',
     handleCommand "/reset" state = Handle true state' [OutReset] /\
     CmdHistory state' = ["a"; "/reset"]) /\
  (exists state',
     handleCommand "/model qwen-max" state =
       Handle true state' [OutSwitched "qwen-max"] /\
     CmdHistory state' = ["a"; "/reset"] /\
     History state' = History state /\
     LastRequestID state' = "r0").
Proof.
  intros state. split.
  - eexists. split; [reflexivity|].
    exact (proj1 (only_reset_changes_conversation "/reset" state true _
                    [OutReset] eq_refl)).
  - eexists. split; [reflexivity|].
    pose proof (only_reset_changes_conversation "/model qwen-max" state true _
                  [OutSwitched "qwen-max"] eq_refl) as [Hlog Hconv].
    split; [exact Hlog|]. apply Hconv. discriminate.
Defined.

(** X12: one toggle of the debug mode negates the debug flag and leaves
    the model, the history, the command log, the last correlation id and
    the single-command flag as they were; so two toggles give the state
    back. *)
Theorem toggle_debug_twice state :
  let once := fst (toggleDebugMode state) in
  Debug once = negb (Debug state) /\
  Model once = Model state /\
  History once = History state /\
  CmdHistory once = CmdHistory state /\
  LastRequestID once = LastRequestID state /\
  isSingleCmd once = isSingleCmd state /\
  fst (toggleDebugMode once) = state.
Proof.
  destruct state as [m h c d r s]. unfold toggleDebugMode, set_Debug. simpl.
  rewrite negb_involutive. repeat split.
Qed.

(** X13: the command "/model " followed by one of the five known names is
    taken as a command and makes that name the active model, whatever the
    state. *)
Theorem model_command_accepts_known name state :
  In name known_models ->
  handleCommand ("/model " ++ name) state =
  Handle true (set_Model name state) [OutSwitched name].
Proof.
  unfold known_models. simpl.
  intros [<-|[<-|[<-|[<-|[<-|[]]]]]]; reflexivity.
Qed.

Lemma model_command_accepts_known_witness :
  In "deepseek-r1" known_models /\
  handleCommand "/model deepseek-r1" (initial_state (X := Demo.online)) =
  Handle true (set_Model "deepseek-r1" (initial_state (X := Demo.online)))
    [OutSwitched "deepseek-r1"].
Proof.
  assert (H : In "deepseek-r1" known_models) by (simpl; tauto).
  split; [exact H|].
  exact (model_command_accepts_known "deepseek-r1"
           (initial_state (X := Demo.online)) H).
Defined.

(** X14: every line that the completer of the line editor can complete to
    is a built-in command: it is never sent to the service as chat text,
    and where it names a model, the model is one that the switch accepts. *)
Theorem completions_are_commands line state :
  In line (flat_map completions (item_children getCompleter)) ->
  match handleCommand line state with
  | Exited _ => True
  | Handle handled _ out => handled = true /\ out <> [OutUnsupportedModel]
  end.
Proof.
  simpl. intros H.
  repeat destruct H as [<-|H]; try contradiction; simpl; try exact I;
    (split; [reflexivity|]); try discriminate.
  unfold showCommandHistory. destruct (Nat.eqb _ 0); discriminate.
Qed.

Lemma completions_are_commands_witness :
  In "/model qwen-turbo" (flat_map completions (item_children getCompleter)) /\
  match handleCommand "/model qwen-turbo" (initial_state (X := Demo.online)) with
  | Exited _ => True
  | Handle handled _ out => handled = true /\ out <> [OutUnsupportedModel]
  end.
Proof.
  assert (H : In "/model qwen-turbo"
                (flat_map completions (item_children getCompleter)))
    by (simpl; tauto).
  split; [exact H|].
  exact (completions_are_commands "/model qwen-turbo"
           (initial_state (X := Demo.online)) H).
Defined.





(** ** Whole sessions *)

Lemma run_turn_frame {X : Externals} state text streamOutput :
  let state' := snd (fst (run_turn state text streamOutput)) in
  Model state' = Model state /\ Debug state' = Debug state /\
  CmdHistory state' = CmdHistory state /\
  isSingleCmd state' = isSingleCmd state.
Proof.
  unfold run_turn, processAIResponse.
  destruct (streamChatCompletion _ streamOutput) as [[[aiReply id] [e|]] out1];
    simpl; tauto.
Qed.

(** The history after a turn: the user message was added, and after it the
    reply, which is not empty, if there was one. *)
Lemma run_turn_cases {X : Externals} state text streamOutput :
  let state' := snd (fst (run_turn state text streamOutput)) in
  History state' = History state ++ [user_message text] \/
  exists reply,
    reply <> "" /\
    History state' = History state ++ [user_message text; assistant_message reply].
Proof.
  unfold run_turn, processAIResponse.
  destruct (streamChatCompletion _ streamOutput)
    as [[[aiReply id] [e|]] out1] eqn:E; simpl.
  - now left.
  - right. exists aiReply. apply streamChatCompletion_success in E.
    split; [tauto | now rewrite <- app_assoc].
Qed.

Lemma session_loop_cons {X : Externals} service clock rl rest state :
  session_loop service clock (rl :: rest) state =
  match session_iteration (X := with_Client_Do X (service clock)) rl state with
  | IterContinue state' out =>
      let '(ended, out') := session_loop service (S clock) rest state' in
      (ended, out ++ out')
  | IterBreak state' => (SessionBreak state', [])
  | IterExit code => (SessionExit code, [])
  end.
Proof. reflexivity. Qed.

Section Preservation.

(** A property of the session state that recording a command, a built-in
    command and a turn on a non-empty input all keep, whatever the
    environment of the turn. *)
Variable P : ChatState -> Prop.
Hypothesis P_log : forall s log, P s -> P (set_CmdHistory log s).
Hypothesis P_command :
  forall input s handled s' out,
    P s -> handleCommand input s = Handle handled s' out -> P s'.
Hypothesis P_turn :
  forall (Y : Externals) s text streamOutput,
    P s -> text <> "" -> P (snd (fst (run_turn (X := Y) s text streamOutput))).

Lemma dispatch_preserves {X : Externals} s input streamOutput :
  P s -> input <> "" ->
  match handleCommand input (set_CmdHistory (CmdHistory s ++ [input]) s) with
  | Exited _ => True
  | Handle true s' _ => P s'
  | Handle false s' _ => P (snd (fst (run_turn s' input streamOutput)))
  end.
Proof.
  intros Hs Hinput.
  destruct (handleCommand input _) as [code|handled s' out] eqn:E; [exact I|].
  assert (Hs' : P s') by (eapply P_command; [|exact E]; now apply P_log).
  destruct handled; [exact Hs' | now apply P_turn].
Qed.

Lemma iteration_preserves {X : Externals} rl s :
  P s ->
  match session_iteration rl s with
  | IterContinue s' _ | IterBreak s' => P s'
  | IterExit _ => True
  end.
Proof.
  intros Hs. destruct rl as [input|input| |err]; simpl; try exact Hs.
  - destruct (String.eqb_spec (strings_TrimSpace input) "") as [_|Hne];
      [exact Hs|].
    pose proof (dispatch_preserves s (strings_TrimSpace input) true Hs Hne) as H.
    destruct (handleCommand _ _) as [|[|] s' out]; [exact I | exact H|].
    destruct (run_turn s' _ true) as [[[reply err] s''] out']. exact H.
  - destruct (Nat.eqb _ 0); exact Hs.
Qed.

Lemma single_command_preserves {X : Externals} s cmd :
  P s ->
  match executeSingleCommand s cmd with
  | ExecReturn _ s' _ => P s'
  | ExecExit _ => True
  end.
Proof.
  intros Hs. unfold executeSingleCommand.
  destruct (String.eqb_spec (strings_TrimSpace cmd) "") as [_|Hne]; [exact Hs|].
  pose proof (dispatch_preserves s (strings_TrimSpace cmd) enableStream Hs Hne)
    as H.
  destruct (handleCommand _ _) as [|[|] s' out]; [exact I | exact H|].
  destruct (run_turn s' _ enableStream) as [[[reply err] s''] out']. exact H.
Qed.

Lemma session_preserves {X : Externals} service clock inputs s :
  P s ->
  match fst (session_loop service clock inputs s) with
  | SessionBreak s' => P s'
  | SessionExit _ => True
  end.
Proof.
  revert clock s. induction inputs as [|rl rest IH]; intros clock s Hs;
    [exact Hs|].
  rewrite session_loop_cons.
  pose proof (iteration_preserves (X := with_Client_Do X (service clock))
                rl s Hs) as H.
  destruct (session_iteration rl s) as [s' out|s'|code]; [|exact H|exact I].
  specialize (IH (S clock) s' H).
  now destruct (session_loop service (S clock) rest s').
Qed.

End Preservation.

Lemma no_blank_log state log :
  no_blank_message state = true ->
  no_blank_message (set_CmdHistory log state) = true.
Proof. exact (fun H => H). Qed.

Lemma no_blank_command input state handled state' out :
  no_blank_message state = true ->
  handleCommand input state = Handle handled state' out ->
  no_blank_message state' = true.
Proof.
  intros Hs H. apply handleCommand_frame in H.
  destruct H as [_ [_ [[[Hh _]|[_ [Hh _]]] _]]]; unfold no_blank_message;
    rewrite Hh; [exact Hs | reflexivity].
Qed.

Lemma no_blank_turn {X : Externals} state text streamOutput :
  no_blank_message state = true -> text <> "" ->
  no_blank_message (snd (fst (run_turn state text streamOutput))) = true.
Proof.
  intros Hs Htext. unfold no_blank_message in *.
  apply String.eqb_neq in Htext.
  destruct (run_turn_cases state text streamOutput) as [H|[reply [Hr H]]];
    rewrite H, forallb_app, Hs; simpl; rewrite Htext; [reflexivity|].
  apply String.eqb_neq in Hr. now rewrite Hr.
Qed.

Lemma system_first_command input state handled state' out :
  starts_with_system state = true ->
  handleCommand input state = Handle handled state' out ->
  starts_with_system state' = true.
Proof.
  intros Hs H. apply handleCommand_frame in H.
  destruct H as [_ [_ [[[Hh _]|[_ [Hh _]]] _]]]; unfold starts_with_system;
    rewrite Hh; [exact Hs | reflexivity].
Qed.

Lemma system_first_turn {X : Externals} state text streamOutput :
  starts_with_system state = true ->
  starts_with_system (snd (fst (run_turn state text streamOutput))) = true.
Proof. intros Hs. now destruct (run_turn_keeps_first state text streamOutput Hs). Qed.

(** X16: no message with an empty content ever enters the history: blank
    input is dropped before it is recorded, and an empty reply is an error,
    not an assistant message. One pass of the interactive loop and a single
    command both keep a history without blank messages that way. *)
Theorem history_never_blank {X : Externals} state :
  no_blank_message state = true ->
  (forall rl,
     match session_iteration rl state with
     | IterContinue state' _ | IterBreak state' => no_blank_message state' = true
     | IterExit _ => True
     end) /\
  (forall cmd,
     match executeSingleCommand state cmd with
     | ExecReturn _ state' _ => no_blank_message state' = true
     | ExecExit _ => True
     end).
Proof.
  intros Hs. split.
  - intros rl.
    exact (iteration_preserves (fun s => no_blank_message s = true)
             no_blank_log no_blank_command (@no_blank_turn) rl state Hs).
  - intros cmd.
    exact (single_command_preserves (fun s => no_blank_message s = true)
             no_blank_log no_blank_command (@no_blank_turn) state cmd Hs).
Qed.

Lemma history_never_blank_witness :
  let state := initial_state (X := Demo2.several) in
  no_blank_message state = true /\
  match session_iteration (X := Demo2.several) (RlLine " hi ") state with
  | IterContinue state' _ | IterBreak state' => no_blank_message state' = true
  | IterExit _ => True
  end.
Proof.
  split; [reflexivity|].
  exact (proj1 (history_never_blank (X := Demo2.several)
                  (initial_state (X := Demo2.several)) eq_refl)
           (RlLine " hi ")).
Defined.

(** X17: a whole interactive session keeps the history well formed: from a
    history that starts with a system message and has no blank message,
    whatever is typed and however the service answers, also when it answers
    the same request differently from one turn to the next, the history at
    the end of the loop starts with a system message and has no blank
    message. *)
Theorem session_history_well_formed {X : Externals}
  (service : Service) clock inputs state :
  starts_with_system state = true ->
  no_blank_message state = true ->
  match fst (session_loop service clock inputs state) with
  | SessionBreak state' =>
      starts_with_system state' = true /\ no_blank_message state' = true
  | SessionExit _ => True
  end.
Proof.
  intros H1 H2.
  apply (session_preserves
           (fun s => starts_with_system s = true /\ no_blank_message s = true)).
  - intros s log [Ha Hb]. now split.
  - intros input s handled s' out [Ha Hb] H. split.
    + eapply system_first_command; eauto.
    + eapply no_blank_command; eauto.
  - intros Y s text so [Ha Hb] Htext. split.
    + now apply system_first_turn.
    + now apply no_blank_turn.
  - now split.
Qed.

Lemma session_history_well_formed_witness :
  let state := initial_state (X := Demo.online) in
  starts_with_system state = true /\
  no_blank_message state = true /\
  match fst (session_loop (X := Demo.online) Demo2.flaky 0
               (readline_results Demo2.retry) state) with
  | SessionBreak state' =>
      starts_with_system state' = true /\ no_blank_message state' = true
  | SessionExit _ => True
  end.
Proof.
  split; [reflexivity|]. split; [reflexivity|].
  exact (session_history_well_formed (X := Demo.online) Demo2.flaky 0
           (readline_results Demo2.retry)
           (initial_state (X := Demo.online)) eq_refl eq_refl).
Defined.

(** The same question, asked again after a reset, can get another answer:
    the first turn fails, the second succeeds. *)
Example session_retry :
  session_loop (X := Demo.online) Demo2.flaky 0
    (readline_results Demo2.retry) (initial_state (X := Demo.online)) =
  (SessionBreak
     {| Model := "qwen-plus";
        History := [system_preamble; user_message "hi";
                    assistant_message "Hello"];
        CmdHistory := ["hi"; "/reset"; "hi"];
        Debug := false;
        LastRequestID := "r1";
        isSingleCmd := false |},
   [OutAIPrefix "qwen-plus";
    OutError (Errorf_w msg_send (errors_New "connection refused"));
    OutNewline; OutReset;
    OutAIPrefix "qwen-plus"; OutContent "Hel"; OutContent "lo"; OutNewline]).
Proof. reflexivity. Qed.

(** X18: the active model at the end of a session is the model the session
    started with or one of the five known names: no input sets any other
    model. *)
Theorem session_model_allowed {X : Externals}
  (service : Service) clock inputs state :
  match fst (session_loop service clock inputs state) with
  | SessionBreak state' => In (Model state') (Model state :: known_models)
  | SessionExit _ => True
  end.
Proof.
  apply (session_preserves
           (fun s => In (Model s) (Model state :: known_models))).
  - intros s log H. exact H.
  - intros input s handled s' out Hs H. apply handleCommand_frame in H.
    destruct H as [_ [_ [_ [[Hm|Hm] _]]]]; [now rewrite Hm | now right].
  - intros Y s text so Hs _.
    destruct (run_turn_frame (X := Y) s text so) as [Hm _]. now rewrite Hm.
  - now left.
Qed.

Lemma session_model_allowed_example :
  match fst (session_loop (X := Demo.online)
               (fun _ => Client_Do (Externals := Demo.online)) 0
               (readline_results Demo2.terminal)
               (initial_state (X := Demo.online))) with
  | SessionBreak state' => Model state' = "qwen-max"
  | SessionExit _ => False
  end.
Proof. reflexivity. Qed.

Lemma iteration_log {X : Externals} rl state :
  match session_iteration rl state with
  | IterContinue state' _ | IterBreak state' =>
      CmdHistory state' = CmdHistory state ++ logged rl
  | IterExit _ => True
  end.
Proof.
  destruct rl as [input|input| |err]; simpl; try now rewrite app_nil_r.
  - destruct (String.eqb (strings_TrimSpace input) "");
      [simpl; now rewrite app_nil_r|].
    destruct (handleCommand _ _) as [code|handled state' out] eqn:E; [exact I|].
    apply handleCommand_frame in E. destruct E as [Hlog _]. simpl in Hlog.
    destruct handled; [exact Hlog|].
    pose proof (run_turn_frame state' (strings_TrimSpace input) true) as Hturn.
    destruct (run_turn state' _ true) as [[[reply err] state''] out'].
    simpl in Hturn. destruct Hturn as [_ [_ [Hturn _]]]. now rewrite Hturn.
  - destruct (Nat.eqb _ 0); simpl; now rewrite app_nil_r.
Qed.

(** X19: the command log at the end of a session is the log at its start
    followed by every non-blank input line, trimmed, in the order typed:
    built-in commands and chat text alike, whether the turn failed or not,
    and not cleared by a reset. Lines after the end of input (or after an
    interrupt on an empty line) are not read. *)
Theorem session_command_log {X : Externals}
  (service : Service) clock inputs state state' :
  fst (session_loop service clock inputs state) = SessionBreak state' ->
  CmdHistory state' =
  CmdHistory state ++ flat_map logged (until_break inputs).
Proof.
  revert clock state. induction inputs as [|rl rest IH]; intros clock state.
  - simpl. intros [= <-]. now rewrite app_nil_r.
  - rewrite session_loop_cons.
    pose proof (iteration_log (X := with_Client_Do X (service clock)) rl state)
      as Hlog.
    change (logged (X := with_Client_Do X (service clock)) rl)
      with (logged rl) in Hlog.
    destruct (session_iteration rl state) as [s1 out|s1|code] eqn:E.
    + destruct (session_loop service (S clock) rest s1)
        as [ended out'] eqn:Erest. simpl.
      intros ->. specialize (IH (S clock) s1). rewrite Erest in IH.
      rewrite (IH eq_refl), Hlog, <- app_assoc. f_equal.
      destruct rl as [input|input| |err]; try reflexivity.
      * simpl in E. now destruct (Nat.eqb (String.length input) 0).
      * discriminate.
    + simpl. intros [= <-]. rewrite Hlog.
      destruct rl as [input|input| |err]; simpl in *.
      * destruct (String.eqb (strings_TrimSpace input) ""); [discriminate|].
        destruct (handleCommand _ _) as [|[|] s' o]; try discriminate.
        now destruct (run_turn s' _ true) as [[[reply err] s''] o'].
      * destruct (Nat.eqb (String.length input) 0); [reflexivity|discriminate].
      * reflexivity.
      * discriminate.
    + discriminate.
Qed.

Lemma session_command_log_witness :
  let state := initial_state (X := Demo.online) in
  exists state',
    fst (session_loop (X := Demo.online) Demo2.flaky 0
           (readline_results Demo2.terminal) state) = SessionBreak state' /\
    CmdHistory state' = ["hi"; "/model qwen-max"; "/reset"].
Proof.
  eexists. split; [reflexivity|].
  exact (session_command_log (X := Demo.online) Demo2.flaky 0
           (readline_results Demo2.terminal)
           (initial_state (X := Demo.online)) _ eq_refl).
Defined.

(** ** The process *)





Example main_interactive :
  main (X := Demo.garbled) ParseOk
    (fun _ => Client_Do (Externals := Demo.garbled)) Demo2.terminal =
  (0%Z,
   [Welcome "qwen-plus" false "/tmp/abls_history.txt";
    Stdout (OutAIPrefix "qwen-plus"); Stdout (OutContent "Hel");
    Stdout (OutError (Errorf_w msg_parse_json (errors_New "invalid character")));
    Stdout OutNewline;
    Stdout (OutSwitched "qwen-max");
    Stdout OutReset]).
Proof. reflexivity. Qed.

Example main_bad_command_line :
  main (X := Demo.online) ParseError Demo2.flaky Demo2.terminal =
    (2%Z, [FlagError]) /\
  main (X := Demo.online) ParseHelp Demo2.flaky Demo2.terminal =
    (0%Z, [FlagHelp]).
Proof. split; reflexivity. Qed.

(** ** Errors of a completion *)

Lemma run_lines_return {X : Externals} debug streamOutput lines v err out :
  run_lines debug streamOutput lines v = Return err out ->
  exists inner, err = Errorf_w msg_parse_json inner.
Proof.
  revert v. induction lines as [|l ls IH]; intros v; [discriminate|].
  rewrite run_lines_cons.
  destruct (classify l) as [| |chunk|e]; try discriminate; [apply IH| |].
  - destruct (stops chunk); [discriminate | apply IH].
  - intros [= <- _]. now exists e.
Qed.

Lemma decode_error {X : Externals} body debug streamOutput text id err out :
  processStreamResponse body debug streamOutput = ((text, id, Some err), out) ->
  text = "" /\ id = "" /\ made_by_source err.
Proof.
  unfold processStreamResponse. rewrite loop_by_lines.
  destruct (run_lines _ _ _ initial_vars) as [v|v|e o] eqn:E.
  - destruct (errors_Is_EOF (final body)).
    + destruct (Nat.eqb _ 0); [|discriminate].
      intros [= <- <- <- _]. now repeat split.
    + intros [= <- <- <- _]. repeat split. simpl. tauto.
  - destruct (Nat.eqb _ 0); [|discriminate].
    intros [= <- <- <- _]. now repeat split.
  - apply run_lines_return in E. destruct E as [inner ->].
    intros [= <- <- <- _]. repeat split. simpl. tauto.
Qed.

(** X21: a completion that fails returns no text and no id, and its error
    is one the program itself made: a wrapped encoding, request, send, read
    or parse error, the API error of a status other than 200, or the empty
    reply. A bare library error, [io.EOF] among them, never comes out. *)
Theorem completion_error_kinds {X : Externals} state streamOutput text id err out :
  streamChatCompletion state streamOutput = ((text, id, Some err), out) ->
  text = "" /\ id = "" /\ made_by_source err.
Proof.
  unfold streamChatCompletion.
  destruct (json_Marshal _) as [jsonData|e];
    [|intros [= <- <- <- _]; repeat split; simpl; tauto].
  destruct (http_NewRequest _ _ _) as [req|e];
    [|intros [= <- <- <- _]; repeat split; simpl; tauto].
  destruct (Client_Do _) as [resp|e];
    [|intros [= <- <- <- _]; repeat split; simpl; tauto].
  destruct (Z.eqb_spec (StatusCode resp) http_StatusOK) as [Hok|Hbad]; simpl.
  - destruct (processStreamResponse (Body resp) (Debug state) streamOutput)
      as [[[t i] e] out'] eqn:E.
    intros [= -> -> -> _]. eapply decode_error; eauto.
  - intros [= <- <- <- _]. now repeat split.
Qed.

Lemma completion_error_kinds_witness :
  let state := initial_state (X := Demo.offline) in
  fst (streamChatCompletion (X := Demo.offline) state true) =
    ("", "", Some (Errorf_w msg_send (errors_New "connection refused"))) /\
  made_by_source (Errorf_w msg_send (errors_New "connection refused")).
Proof.
  split; [reflexivity|].
  exact (proj2 (proj2 (completion_error_kinds (X := Demo.offline)
                         (initial_state (X := Demo.offline)) true
                         "" "" _ [] eq_refl))).
Defined.

(** ** The target of a model switch *)

(** X22: a model switch reads the text between the first and the second
    blank of its input as the target and ignores what follows: words after
    the name change nothing, and with two blanks after the command the
    target is empty, so that the state is left as it was even when a known
    name follows. *)
Theorem model_switch_target head target rest state :
  no_space head = true ->
  no_space target = true ->
  fst (handleModelSwitch (head ++ " " ++ target ++ " " ++ rest) state) =
    fst (handleModelSwitch (head ++ " " ++ target) state) /\
  fst (handleModelSwitch (head ++ " " ++ target) state) =
    (if is_known_model target then set_Model target state else state).
Proof.
  intros Hhead Htarget. unfold handleModelSwitch.
  rewrite !(strings_Split_head head) by exact Hhead.
  rewrite (strings_Split_head target) by exact Htarget.
  rewrite (strings_Split_single target) by exact Htarget.
  destruct (strings_Split rest " ") as [|p ps]; simpl;
    now destruct (is_known_model target).
Qed.

Lemma model_switch_target_witness :
  let state := initial_state (X := Demo.online) in
  fst (handleModelSwitch "/model  qwen-max" state) = state /\
  fst (handleModelSwitch "/model qwen-max now" state) =
    set_Model "qwen-max" state.
Proof.
  intros state. split.
  - exact (eq_trans
             (proj1 (model_switch_target "/model" "" "qwen-max" state
                       eq_refl eq_refl))
             (proj2 (model_switch_target "/model" "" "qwen-max" state
                       eq_refl eq_refl))).
  - exact (eq_trans
             (proj1 (model_switch_target "/model" "qwen-max" "now" state
                       eq_refl eq_refl))
             (proj2 (model_switch_target "/model" "qwen-max" "now" state
                       eq_refl eq_refl))).
Defined.
